(** * Job-completion polling in the Bedrock Data Automation notebooks

    The two notebooks submit a video to the service, poll
    [get_data_automation_status] until the job is over, and then read the
    result document from S3.  This development embeds

    - the polling cell of lab 1 (extract_analyze_a_movie.py, lines 217-238),
    - the cells of lab 2 around the call of [bda_utils.wait_for_completion]
      (video-blueprint-with-osod.py, lines 289-319),
    - the poller behind that call, whose module
      (bda_object_detection_utils) is not part of the sources at hand, and
    - the cells of both notebooks that make the upload key, create the
      blueprint and the project, load and print the results and delete
      them,

    and states the polling properties and the behaviour of those cells
    over them. *)

From stdpp Require Import gmap strings list fin_maps.
From Stdlib Require Import ZArith Lia SpecFloat Ascii.

Set Warnings "-register-all".
Local Open Scope string_scope.
Local Open Scope list_scope.

(** ** The fragment of Python the notebook cells use *)

Module Py.

(** Values: [None], strings, and dictionaries keyed by strings (the boto3
    responses are JSON objects). *)
Inductive pyval :=
| PNone
| PStr (s : string)
| PDict (d : gmap string pyval).

Inductive exn :=
| NameError (name : string)
| KeyError (key : string)
| AttributeError (attr : string)
| TypeError
| TransportError (msg : string)   (* any exception of the boto3 status call *)
| StorageError.                   (* any exception of the S3 read helper *)

(** What a cell does to the outside, in the order it does it.  The
    time stamp that lab 1 prints in front of the status is left out. *)
Inductive event :=
| EQuery (invocationArn : pyval)
| EClearOutput
| EPrint (text : string) (arg : pyval)
| ESleep (secs : Z)
| EReadJson (uri : pyval).

(** The notebook's global namespace and the effects so far. *)
Record world := World {
  ns : gmap string pyval;
  trace : list event
}.

Inductive result (A : Type) :=
| Ok (a : A) (w : world)
| Raise (e : exn) (w : world).
Arguments Ok {A} a w.
Arguments Raise {A} e w.

Definition M (A : Type) : Type := world -> result A.

Definition ret {A} (a : A) : M A := fun w => Ok a w.
Definition raise {A} (e : exn) : M A := fun w => Raise e w.
Definition bind {A B} (m : M A) (k : A -> M B) : M B :=
  fun w => match m w with
           | Ok a w' => k a w'
           | Raise e w' => Raise e w'
           end.

Declare Scope py_scope.
Delimit Scope py_scope with py.
Notation "x <~ m ;; k" := (bind m (fun x => k))
  (at level 100, m at next level, right associativity) : py_scope.
Notation "m ;;; k" := (bind m (fun _ => k))
  (at level 100, right associativity) : py_scope.
Local Open Scope py_scope.

(** Reading a name that no cell has assigned raises [NameError]. *)
Definition read_var (x : string) : M pyval :=
  fun w => match ns w !! x with
           | Some v => Ok v w
           | None => Raise (NameError x) w
           end.

Definition assign (x : string) (v : pyval) : M unit :=
  fun w => Ok tt {| ns := <[x := v]> (ns w); trace := trace w |}.

Definition emit (e : event) : M unit :=
  fun w => Ok tt {| ns := ns w; trace := trace w ++ [e] |}.

(** [v.get(k, default)] *)
Definition py_get (v : pyval) (k : string) (dflt : pyval) : M pyval :=
  match v with
  | PDict d => ret (default dflt (d !! k))
  | _ => raise (AttributeError "get")
  end.

(** [v[k]] *)
Definition py_index (v : pyval) (k : string) : M pyval :=
  match v with
  | PDict d => match d !! k with
               | Some x => ret x
               | None => raise (KeyError k)
               end
  | _ => raise TypeError
  end.

(** [k in v]: key membership on a dictionary, substring test on a string *)
Fixpoint is_infix (k s : string) : bool :=
  String.prefix k s ||
  match s with
  | EmptyString => false
  | String _ s' => is_infix k s'
  end.

Definition py_contains (k : string) (v : pyval) : M bool :=
  match v with
  | PDict d => ret (bool_decide (is_Some (d !! k)))
  | PStr s => ret (is_infix k s)
  | PNone => raise TypeError
  end.

(** [v == s] for a string literal [s] *)
Definition py_eq_str (v : pyval) (s : string) : bool :=
  match v with
  | PStr t => bool_decide (t = s)
  | _ => false
  end.

(** [v in [s1, ..., sn]] for a list of string literals *)
Definition py_in (v : pyval) (l : list string) : bool :=
  existsb (py_eq_str v) l.

(** Counting what a trace holds. *)
Definition is_query (e : event) : bool :=
  match e with EQuery _ => true | _ => false end.

Definition queries (tr : list event) : nat :=
  length (List.filter is_query tr).

Definition sleeps (tr : list event) : list Z :=
  omap (fun e => match e with ESleep d => Some d | _ => None end) tr.

Definition handles (tr : list event) : list pyval :=
  omap (fun e => match e with EQuery h => Some h | _ => None end) tr.

(** The remote service, as the notebook sees it: the answer to the [i]-th
    status call (counted from 0) for a given invocation ARN. *)
Inductive reply :=
| Reply (resp : gmap string pyval)
| Fault (msg : string).

Definition service : Type := pyval -> nat -> reply.

(** [bda_runtime_client.get_data_automation_status(invocationArn=arn)] *)
Definition get_data_automation_status (svc : service) (arn : pyval) : M pyval :=
  fun w =>
    let w' := {| ns := ns w; trace := trace w ++ [EQuery arn] |} in
    match svc arn (queries (trace w)) with
    | Reply resp => Ok (PDict resp) w'
    | Fault msg => Raise (TransportError msg) w'
    end.

(** The S3 read helpers ([utils.read_json_on_s3],
    [bda_utils.read_json_from_s3]): what they return for a URI is left to
    the object store. *)
Definition storage : Type := pyval -> option pyval.

Definition read_json (s3 : storage) (uri : pyval) : M pyval :=
  fun w =>
    let w' := {| ns := ns w; trace := trace w ++ [EReadJson uri] |} in
    match s3 uri with
    | Some doc => Ok doc w'
    | None => Raise StorageError w'
    end.

(** How a loop run under a bound on its iterations ends. *)
Inductive run :=
| Exited (w : world)
| Raised (e : exn) (w : world)
| Running (w : world).

Definition world_of (r : run) : world :=
  match r with
  | Exited w | Raised _ w | Running w => w
  end.

Definition result_world {A} (r : result A) : world :=
  match r with
  | Ok _ w | Raise _ w => w
  end.

End Py.

(** ** Lab 1: the polling cell and what follows it
    (extract_analyze_a_movie.py, lines 217-238) *)

Module Lab1.
Import Py.
Local Open Scope py_scope.

(** The list the [while] condition tests the status against (line 218). *)
Definition terminal_states : list string :=
  ["Success"; "ServiceError"; "ClientError"].

Section Cells.
Variable svc : service.
Variable s3 : storage.

(** Lines 219-225, the body of the loop. *)
Definition poll_once : M unit :=
  arn <~ read_var "invocation_arn" ;;
  resp <~ get_data_automation_status svc arn ;;
  assign "status_response" resp ;;;
  sr <~ read_var "status_response" ;;
  st <~ py_get sr "status" PNone ;;
  assign "status" st ;;;
  emit EClearOutput ;;;
  shown <~ read_var "status" ;;
  emit (EPrint "BDA video task:" shown) ;;;
  emit (ESleep 5).

(** Line 218, [while status not in [...]]: the condition is tested
    first; [fuel] bounds the number of times the body is entered, and
    [Running] is the loop that would enter it once more. *)
Fixpoint while_status (fuel : nat) (w : world) : run :=
  match read_var "status" w with
  | Raise e w' => Raised e w'
  | Ok st w' =>
      if py_in st terminal_states then Exited w'
      else match fuel with
           | O => Running w'
           | S fuel' =>
               match poll_once w' with
               | Raise e w'' => Raised e w''
               | Ok _ w'' => while_status fuel' w''
               end
           end
  end.

(** Line 217, [status, status_response = None, None]. *)
Definition init_status : M unit :=
  assign "status" PNone ;;;
  assign "status_response" PNone.

(** Lines 217-225. *)
Definition poll (fuel : nat) (w : world) : run :=
  match init_status w with
  | Raise e w' => Raised e w'
  | Ok _ w' => while_status fuel w'
  end.

(** Lines 227-228. *)
Definition extract_output_config : M unit :=
  sr <~ read_var "status_response" ;;
  oc <~ py_get sr "outputConfiguration" (PDict ∅) ;;
  uri <~ py_get oc "s3Uri" PNone ;;
  assign "output_config" uri ;;;
  shown <~ read_var "output_config" ;;
  emit (EPrint "Ouput configureation file:" shown).

(** Lines 238-239; [json.dumps] of the document is shown as the
    document itself. *)
Definition read_config : M unit :=
  uri <~ read_var "output_config" ;;
  doc <~ read_json s3 uri ;;
  assign "config_data" doc ;;;
  shown <~ read_var "config_data" ;;
  emit (EPrint "" shown).

(** What the notebook does once the loop is left (lines 227-239). *)
Definition after_poll : M unit :=
  extract_output_config ;;;
  read_config.

(** Lines 217-239, top to bottom. *)
Definition cells (fuel : nat) (w : world) : run :=
  match poll fuel w with
  | Exited w' =>
      match after_poll w' with
      | Ok _ w'' => Exited w''
      | Raise e w'' => Raised e w''
      end
  | r => r
  end.
End Cells.

(** *** The shape of a run, for stating what the loop does *)

(** [status_response.get("status")] *)
Definition status_of (resp : gmap string pyval) : pyval :=
  default PNone (resp !! "status").

(** A response on which the [while] condition stays true. *)
Definition pending (resp : gmap string pyval) : Prop :=
  py_in (status_of resp) terminal_states = false.

(** The service answers the calls from number [from] on with [resps]. *)
Definition answers (svc : service) (arn : pyval) (from : nat)
    (resps : list (gmap string pyval)) : Prop :=
  forall j resp, resps !! j = Some resp -> svc arn (from + j) = Reply resp.

(** The effects of one pass through the body, and the world after it. *)
Definition round (arn : pyval) (resp : gmap string pyval) : list event :=
  [EQuery arn; EClearOutput; EPrint "BDA video task:" (status_of resp); ESleep 5].

Definition after_round (arn : pyval) (w : world) (resp : gmap string pyval)
    : world :=
  {| ns := <["status" := status_of resp]>
             (<["status_response" := PDict resp]> (ns w));
     trace := trace w ++ round arn resp |}.

Definition after_rounds (arn : pyval) (resps : list (gmap string pyval))
    (w : world) : world :=
  foldl (after_round arn) w resps.

(** The ways a run of the loop from [w] can end within [fuel] passes:
    it is left on a terminal status, it is still going, or a status call
    has failed. *)
Inductive ends (svc : service) (arn : pyval) (w : world) (fuel : nat)
    : run -> Prop :=
| ends_exited resps s :
    answers svc arn (queries (trace w)) resps ->
    (length resps <= fuel)%nat ->
    ns (after_rounds arn resps w) !! "status" = Some (PStr s) ->
    s ∈ terminal_states ->
    ends svc arn w fuel (Exited (after_rounds arn resps w))
| ends_running resps :
    answers svc arn (queries (trace w)) resps ->
    length resps = fuel ->
    ends svc arn w fuel (Running (after_rounds arn resps w))
| ends_raised resps msg :
    answers svc arn (queries (trace w)) resps ->
    (length resps < fuel)%nat ->
    svc arn (queries (trace w) + length resps) = Fault msg ->
    ends svc arn w fuel
      (Raised (TransportError msg)
         {| ns := ns (after_rounds arn resps w);
            trace := trace (after_rounds arn resps w) ++ [EQuery arn] |}).

(** The world line 217 leaves behind. *)
Definition initialised (w : world) : world :=
  {| ns := <["status_response" := PNone]> (<["status" := PNone]> (ns w));
     trace := trace w |}.

(** A service that answers every call with the same status, and one that
    replays a list of statuses and then keeps answering [last]. *)
Definition status_only (st : string) : gmap string pyval :=
  {["status" := PStr st]}.

Definition replay (codes : list string) (last : string) : service :=
  fun _ i => Reply (status_only (nth i codes last)).

(** A service whose status call always fails. *)
Definition broken (msg : string) : service := fun _ _ => Fault msg.

(** A namespace in which the submission cell (line 201) has run. *)
Definition submitted (arn : string) : world :=
  {| ns := {["invocation_arn" := PStr arn]}; trace := [] |}.

End Lab1.

(** ** Lab 2: the cells after the call of [wait_for_completion]
    (video-blueprint-with-osod.py, lines 289-319) *)

Module Lab2.
Import Py.
Local Open Scope py_scope.

Section Cells.
Variable s3 : storage.

(** Lines 299-307.  [returned] is what [bda_utils.wait_for_completion]
    handed back at line 289. *)
Definition check_success (returned : pyval) : M unit :=
  assign "status_response" returned ;;;
  sr <~ read_var "status_response" ;;
  st <~ py_index sr "status" ;;
  if py_eq_str st "Success" then
    sr <~ read_var "status_response" ;;
    oc <~ py_get sr "outputConfiguration" (PDict ∅) ;;
    uri <~ py_get oc "s3Uri" PNone ;;
    assign "output_config_uri" uri ;;;
    emit (EPrint "Video processing completed successfully!" PNone) ;;;
    shown <~ read_var "output_config_uri" ;;
    emit (EPrint "Output configuration:" shown)
  else
    sr <~ read_var "status_response" ;;
    st <~ py_index sr "status" ;;
    emit (EPrint "Video processing failed with status:" st) ;;;
    sr <~ read_var "status_response" ;;
    has <~ py_contains "error_message" sr ;;
    if has : bool then
      sr <~ read_var "status_response" ;;
      msg <~ py_index sr "error_message" ;;
      emit (EPrint "Error message:" msg)
    else ret tt.

(** Line 319. *)
Definition load_job_metadata : M unit :=
  uri <~ read_var "output_config_uri" ;;
  doc <~ read_json s3 uri ;;
  assign "config_data" doc.

(** Lines 289-319: the second cell runs after the first has finished. *)
Definition cells (returned : pyval) : M unit :=
  check_success returned ;;;
  load_job_metadata.
End Cells.

End Lab2.

(** ** The poller behind [bda_utils.wait_for_completion] *)

Module Poller.

(** Modelled from the spec: the data of the Job Completion Poller (section
    3).  [wait_for_completion] lives in bda_object_detection_utils, which
    is not among the sources; only its call at lines 289-297 of lab 2 is. *)
Definition JobHandle : Type := string.

(** Modelled from the spec: a status snapshot (section 3), a code with an
    optional output location and an optional error message. *)
Record JobStatus := {
  code : string;
  output_location : option string;
  error_message : option string
}.

(** Modelled from the spec: the status-query capability (section 6),
    [query(handle) -> JobStatus | TransportError]. *)
Inductive answer :=
| Status (s : JobStatus)
| TransportError (msg : string).

(** Modelled from the spec: the classification a failure carries, the
    remote status code (section 4.1) or the transport error (section 7). *)
Inductive classification :=
| Remote (code : string)
| Transport.

(** Modelled from the spec: the three terminal values (section 3). *)
Inductive PollResult :=
| Success (location : option string)
| Failure (cls : classification) (msg : option string)
| Timeout (last : JobStatus).

(** Modelled from the spec: a result is returned, or the configuration
    error is raised (section 7). *)
Inductive outcome :=
| Returned (r : PollResult)
| ConfigurationError.

(** Modelled from the spec: the side effects of section 4.1, status
    queries and waits. *)
Inductive effect :=
| Query (h : JobHandle)
| Sleep (d : Z).

Definition queries (tr : list effect) : nat :=
  length (List.filter (fun e => match e with Query _ => true | _ => false end) tr).

Definition sleeps (tr : list effect) : list Z :=
  omap (fun e => match e with Sleep d => Some d | _ => None end) tr.

Definition handles (tr : list effect) : list JobHandle :=
  omap (fun e => match e with Query h => Some h | _ => None end) tr.

Section Poll.
Variable query : JobHandle -> nat -> answer.
Variable handle : JobHandle.
Variables success failure : gset string.
Variable delay : Z.

(** Modelled from the spec: the algorithm of section 4.1.  [i] queries
    have been issued so far and [left] is how many the budget still
    allows after the one issued here, so the iteration count has reached
    [max_iterations] exactly when [left] is 0. *)
Fixpoint iterate (left i : nat) : list effect * PollResult :=
  match query handle i with
  | TransportError msg => ([Query handle], Failure Transport (Some msg))
  | Status s =>
      if decide (code s ∈ success) then
        ([Query handle], Success (output_location s))
      else if decide (code s ∈ failure) then
        ([Query handle], Failure (Remote (code s)) (error_message s))
      else
        match left with
        | O => ([Query handle], Timeout s)
        | S left' =>
            let '(tr, r) := iterate left' (S i) in
            (Query handle :: Sleep delay :: tr, r)
        end
  end.

(** Modelled from the spec: the poller of section 4.1 with its edge-case
    policy, a [max_iterations] of zero or a non-positive [delay] being
    rejected before the loop starts. *)
Definition wait_for_completion (max_iterations : nat) : list effect * outcome :=
  if decide (max_iterations = 0%nat \/ (delay <= 0)%Z) then
    ([], ConfigurationError)
  else
    let '(tr, r) := iterate (max_iterations - 1) 0 in
    (tr, Returned r).
End Poll.

(** A status whose code is in neither set, and a capability that answers
    the queries from number [from] on with the statuses [sts]. *)
Definition pending (success failure : gset string) (s : JobStatus) : Prop :=
  (code s ∉ success) /\ (code s ∉ failure).

Definition answers (query : JobHandle -> nat -> answer) (handle : JobHandle)
    (from : nat) (sts : list JobStatus) : Prop :=
  forall j s, sts !! j = Some s -> query handle (from + j) = Status s.

(** The effects of [n] pending iterations. *)
Definition waits (handle : JobHandle) (delay : Z) (n : nat) : list effect :=
  concat (replicate n [Query handle; Sleep delay]).

(** A status-query capability that replays a fixed list of status codes and
    repeats [last] afterwards. *)
Definition bare (c : string) : JobStatus :=
  {| code := c; output_location := None; error_message := None |}.

Definition replay (codes : list string) (last : string)
    : JobHandle -> nat -> answer :=
  fun _ i => Status (bare (nth i codes last)).

(** The arguments of the call in lab 2 (lines 292-296). *)
Definition completion_states : gset string := {["Success"]}.
Definition error_states : gset string := {["ClientError"; "ServiceError"]}.
Definition lab2_max_iterations : nat := 40.
Definition lab2_delay : Z := 10.

End Poller.

(** ** Strings: the [str] methods the other cells call *)

Module Str.

(** [s.split(sep)] for a separator of one character, as in
    [sample_video_movie.split("/")]. *)
Fixpoint split (sep : ascii) (s : string) : list string :=
  match s with
  | EmptyString => [EmptyString]
  | String c s' =>
      if decide (c = sep) then EmptyString :: split sep s'
      else match split sep s' with
           | h :: t => String c h :: t
           | [] => [String c EmptyString]
           end
  end.

(** [sep.join(l)] *)
Fixpoint join (sep : string) (l : list string) : string :=
  match l with
  | [] => EmptyString
  | x :: rest =>
      match rest with
      | [] => x
      | _ :: _ => String.append x (String.append sep (join sep rest))
      end
  end.

(** [s.replace(old, new)] for a non-empty [old]: the occurrences of [old]
    are replaced from left to right, without overlap.  [skip] counts the
    characters of an occurrence still to be passed over. *)
Fixpoint replace_from (old new : string) (skip : nat) (s : string) : string :=
  match s with
  | EmptyString => EmptyString
  | String c s' =>
      match skip with
      | S k => replace_from old new k s'
      | O =>
          if String.prefix old s
          then String.append new
                 (replace_from old new (String.length old - 1) s')
          else String c (replace_from old new 0 s')
      end
  end.

Definition replace (old new s : string) : string := replace_from old new 0 s.

(** [s.lstrip(c)] for one character [c]. *)
Fixpoint lstrip (c : ascii) (s : string) : string :=
  match s with
  | EmptyString => EmptyString
  | String a s' => if decide (a = c) then lstrip c s' else s
  end.

(** The character [c] occurs in [s]. *)
Fixpoint has (c : ascii) (s : string) : bool :=
  match s with
  | EmptyString => false
  | String a s' => bool_decide (a = c) || has c s'
  end.

(** [old] occurs in [p ++ old] at the very end only. *)
Fixpoint only_at_end (old p : string) : bool :=
  match p with
  | EmptyString => true
  | String c p' =>
      negb (String.prefix old (String.append p old)) && only_at_end old p'
  end.

End Str.

(** ** JSON documents and the cells that walk them *)

Module Json.

(** What [json.load] gives: [None], booleans, integers, floats, strings,
    lists, and dictionaries in the order of the document. *)
Inductive jval :=
| JNull
| JBool (b : bool)
| JInt (z : Z)
| JFloat (f : spec_float)
| JStr (s : string)
| JList (l : list jval)
| JDict (d : list (string * jval)).

Inductive exn :=
| NameError (name : string)
| KeyError (key : jval)
| IndexError
| TypeError
| AttributeError (attr : string)
| ValueError
| ExternalError (what : string).   (* any exception of a call to the outside *)

Fixpoint lookup_key (k : string) (d : list (string * jval)) : option jval :=
  match d with
  | [] => None
  | (k', v) :: rest => if decide (k' = k) then Some v else lookup_key k rest
  end.

(** The truth value of a value, as [if v:] takes it. *)
Definition truthy (v : jval) : bool :=
  match v with
  | JNull => false
  | JBool b => b
  | JInt z => negb (z =? 0)%Z
  | JFloat (S754_zero _) => false
  | JFloat _ => true
  | JStr s => negb (bool_decide (s = EmptyString))
  | JList l => negb (bool_decide (l = []))
  | JDict d => negb (bool_decide (d = []))
  end.

(** [v[k]] for a string [k] *)
Definition subscript (v : jval) (k : string) : exn + jval :=
  match v with
  | JDict d => match lookup_key k d with
               | Some x => inr x
               | None => inl (KeyError (JStr k))
               end
  | _ => inl TypeError
  end.

(** [v[i]] for an index [i] that is not negative *)
Definition index (v : jval) (i : nat) : exn + jval :=
  match v with
  | JList l => match l !! i with
               | Some x => inr x
               | None => inl IndexError
               end
  | JStr s => match String.get i s with
              | Some c => inr (JStr (String c EmptyString))
              | None => inl IndexError
              end
  | JDict _ => inl (KeyError (JInt (Z.of_nat i)))
  | _ => inl TypeError
  end.

(** [v.get(k, dflt)] *)
Definition get (v : jval) (k : string) (dflt : jval) : exn + jval :=
  match v with
  | JDict d => inr (default dflt (lookup_key k d))
  | _ => inl (AttributeError "get")
  end.

(** The values [for x in v] goes through. *)
Definition iterate (v : jval) : exn + list jval :=
  match v with
  | JList l => inr l
  | JStr s => inr (map (fun c => JStr (String c EmptyString))
                     (String.list_ascii_of_string s))
  | JDict d => inr (map (fun kv => JStr kv.1) d)
  | _ => inl TypeError
  end.

(** [sep.join(v)]: every item has to be a string. *)
Fixpoint strings (l : list jval) : option (list string) :=
  match l with
  | [] => Some []
  | JStr s :: rest => match strings rest with
                      | Some ss => Some (s :: ss)
                      | None => None
                      end
  | _ :: _ => None
  end.

Definition join (sep : string) (v : jval) : exn + string :=
  match iterate v with
  | inl e => inl e
  | inr items => match strings items with
                 | Some ss => inr (Str.join sep ss)
                 | None => inl TypeError
                 end
  end.

End Json.

(** ** The other cells: a namespace of JSON values, calls to the outside *)

Module Nb.
Import Json.

(** The calls that leave the notebook, with the arguments that vary. *)
Inductive call :=
| ReadJsonS3 (uri : jval)                 (* utils.read_json_on_s3, bda_utils.read_json_from_s3 *)
| UploadFile (file bucket key : jval)     (* s3_client.upload_file *)
| UploadToS3 (file key : jval)            (* bda_utils.upload_to_s3 *)
| DownloadVideo (url file : jval)         (* bda_utils.download_video *)
| DisplayVideo (file : jval)              (* display(Video(file, width=800)) *)
| SaveJson (path : string) (doc : jval)   (* json.dump(doc, open(path, 'w')) *)
| DeleteS3Folder (args : list jval)       (* utils.delete_s3_folder, bda_utils.delete_s3_folder *)
| CreateBlueprint (name schema : jval)    (* bda_client.create_blueprint *)
| CreateProject (name config blueprintArn : jval).
                                          (* bda_client.create_data_automation_project *)

(** What a cell shows and does, in order.  A print is recorded with the
    text of its format and the values put into it. *)
Inductive event :=
| Printed (text : string) (args : list jval)
| PrintedError (text : string) (e : exn)
| Called (c : call).

(** The outside answers a call with a value, or the call raises. *)
Definition outside : Type := call -> option jval.

Record state := State {
  vars : gmap string jval;
  log : list event
}.

Inductive res (A : Type) :=
| Val (a : A) (s : state)
| Exn (e : exn) (s : state).
Arguments Val {A} a s.
Arguments Exn {A} e s.

Definition state_of {A} (r : res A) : state :=
  match r with
  | Val _ s | Exn _ s => s
  end.

Definition N (A : Type) : Type := state -> res A.

Definition ret {A} (a : A) : N A := fun s => Val a s.
Definition raise {A} (e : exn) : N A := fun s => Exn e s.
Definition bind {A B} (m : N A) (k : A -> N B) : N B :=
  fun s => match m s with
           | Val a s' => k a s'
           | Exn e s' => Exn e s'
           end.

Declare Scope nb_scope.
Delimit Scope nb_scope with nb.
Notation "x <~ m ;; k" := (bind m (fun x => k))
  (at level 100, m at next level, right associativity) : nb_scope.
Notation "m ;;; k" := (bind m (fun _ => k))
  (at level 100, right associativity) : nb_scope.
Local Open Scope nb_scope.

Definition lift {A} (r : exn + A) : N A :=
  match r with
  | inr a => ret a
  | inl e => raise e
  end.

Definition read_var (x : string) : N jval :=
  fun s => match vars s !! x with
           | Some v => Val v s
           | None => Exn (NameError x) s
           end.

Definition assign (x : string) (v : jval) : N unit :=
  fun s => Val tt {| vars := <[x := v]> (vars s); log := log s |}.

(** [del x], as at the end of an [except ... as x] block. *)
Definition unbind (x : string) : N unit :=
  fun s => Val tt {| vars := delete x (vars s); log := log s |}.

Definition emit (e : event) : N unit :=
  fun s => Val tt {| vars := vars s; log := log s ++ [e] |}.

Definition call_out (out : outside) (what : string) (c : call) : N jval :=
  fun s =>
    let s' := {| vars := vars s; log := log s ++ [Called c] |} in
    match out c with
    | Some v => Val v s'
    | None => Exn (ExternalError what) s'
    end.


(** [for x in items: body] *)
Fixpoint for_each (x : string) (items : list jval) (body : N unit) : N unit :=
  match items with
  | [] => ret tt
  | v :: rest => assign x v ;;; body ;;; for_each x rest body
  end.

(** [v[-1]] *)
Definition last_of (v : jval) : exn + jval :=
  match v with
  | JList l => match last l with
               | Some x => inr x
               | None => inl IndexError
               end
  | JStr s => match last (String.list_ascii_of_string s) with
              | Some c => inr (JStr (String c EmptyString))
              | None => inl IndexError
              end
  | JDict _ => inl (KeyError (JInt (-1)))
  | _ => inl TypeError
  end.

(** [v.split("/")], [v.replace(old, new)]: methods of strings only. *)
Definition method_split (v : jval) : exn + jval :=
  match v with
  | JStr s => inr (JList (map JStr (Str.split "/" s)))
  | _ => inl (AttributeError "split")
  end.

Definition method_replace (v : jval) (old new : string) : exn + string :=
  match v with
  | JStr s => inr (Str.replace old new s)
  | _ => inl (AttributeError "replace")
  end.

(** [v.append(x)], on the list bound to the name [l]. *)
Definition append_to (l : string) (x : jval) : N unit :=
  v <~ read_var l ;;
  match v with
  | JList items => assign l (JList (items ++ [x]))
  | _ => raise (AttributeError "append")
  end.

(** A value of the polling cells as a value of this namespace, and the
    state in which a later cell starts after them. *)
Fixpoint of_py (v : Py.pyval) : jval :=
  match v with
  | Py.PNone => JNull
  | Py.PStr s => JStr s
  | Py.PDict d => JDict (map_to_list (of_py <$> d))
  end.

Definition after_polling (w : Py.world) : state :=
  {| vars := of_py <$> Py.ns w; log := [] |}.

End Nb.

(** ** Lab 1: the cells before and after the polling
    (extract_analyze_a_movie.py) *)

Module Lab1Cells.
Import Json Nb.
Local Open Scope nb_scope.

Section Cells.
Variable out : outside.
(** [str(v)] of a value that is not a string, as an f-string shows it. *)
Variable repr : jval -> string.
(** [urllib.parse.urlparse(u).path]; [None] when [urlparse] raises. *)
Variable urlparse_path : string -> option string.

(** What an f-string puts for a value. *)
Definition py_str (v : jval) : string :=
  match v with
  | JStr s => s
  | _ => repr v
  end.

(** Line 160, [s3_key = f'{data_prefix}/{sample_video_movie.split("/")[-1]}']. *)
Definition make_s3_key : N unit :=
  prefix <~ read_var "data_prefix" ;;
  name <~ read_var "sample_video_movie" ;;
  parts <~ lift (method_split name) ;;
  base <~ lift (last_of parts) ;;
  assign "s3_key"
    (JStr (String.append (py_str prefix) (String.append "/" (py_str base)))).

(** Line 161. *)
Definition upload_video : N unit :=
  file <~ read_var "sample_video_movie" ;;
  bucket <~ read_var "data_bucket" ;;
  key <~ read_var "s3_key" ;;
  call_out out "upload_file" (UploadFile file bucket key) ;;;
  ret tt.

(** Lines 160-161. *)
Definition upload_cell : N unit :=
  make_s3_key ;;;
  upload_video.

(** [config_data["output_metadata"][0]["segment_metadata"][0][key]]
    (line 249, and line 322 of lab 2 with another key). *)
Definition first_output_path (key : string) : N jval :=
  cfg <~ read_var "config_data" ;;
  metas <~ lift (subscript cfg "output_metadata") ;;
  meta <~ lift (index metas 0) ;;
  segments <~ lift (subscript meta "segment_metadata") ;;
  segment <~ lift (index segments 0) ;;
  lift (subscript segment key).

(** Lines 249-252. *)
Definition read_result : N unit :=
  path <~ first_output_path "standard_output_path" ;;
  assign "result_uri" path ;;;
  uri <~ read_var "result_uri" ;;
  doc <~ call_out out "read_json_on_s3" (ReadJsonS3 uri) ;;
  assign "result_data" doc ;;;
  shown <~ read_var "result_data" ;;
  emit (Printed "{}" [shown]).

(** Lines 293-294, the body of the inner loop. *)
Definition collect_category : N unit :=
  iab <~ read_var "iab" ;;
  category <~ lift (subscript iab "category") ;;
  append_to "iabs" category.

(** Lines 291-298, the body of the loop over the chapters. *)
Definition chapter_block : N unit :=
  assign "iabs" (JList []) ;;;
  chapter <~ read_var "chapter" ;;
  cats <~ lift (get chapter "iab_categories" JNull) ;;
  (if truthy cats then
     chapter <~ read_var "chapter" ;;
     cats <~ lift (subscript chapter "iab_categories") ;;
     items <~ lift (iterate cats) ;;
     for_each "iab" items collect_category
   else ret tt) ;;;
  chapter <~ read_var "chapter" ;;
  start <~ lift (subscript chapter "start_timecode_smpte") ;;
  chapter <~ read_var "chapter" ;;
  stop <~ lift (subscript chapter "end_timecode_smpte") ;;
  iabs <~ read_var "iabs" ;;
  joined <~ lift (join ", " iabs) ;;
  emit (Printed "[{} - {}] {}" [start; stop; JStr joined]) ;;;
  chapter <~ read_var "chapter" ;;
  summary <~ lift (subscript chapter "summary") ;;
  emit (Printed "{}" [summary]) ;;;
  emit (Printed "" []).

(** Lines 290-298. *)
Definition print_chapters : N unit :=
  result_data <~ read_var "result_data" ;;
  chapters <~ lift (subscript result_data "chapters") ;;
  items <~ lift (iterate chapters) ;;
  for_each "chapter" items chapter_block.

(** Line 386. *)
Definition delete_results : N unit :=
  bucket <~ read_var "data_bucket" ;;
  config <~ read_var "output_config" ;;
  folder <~ lift (method_replace config "job_metadata.json" "") ;;
  path <~ lift (match urlparse_path folder with
                | Some p => inr p
                | None => inl ValueError
                end) ;;
  call_out out "delete_s3_folder"
    (DeleteS3Folder [bucket; JStr (Str.lstrip "/" path)]) ;;;
  ret tt.
End Cells.

(** *** What a chapter has to look like for its block to be printed *)

(** The categories of a chapter: none when [iab_categories] is missing or
    counts as false, else one string per item of the list. *)
Definition has_category (item : jval) (c : string) : Prop :=
  exists d, item = JDict d /\ lookup_key "category" d = Some (JStr c).

Definition has_categories (d : list (string * jval)) (cats : list string) : Prop :=
  (truthy (default JNull (lookup_key "iab_categories" d)) = false /\ cats = [])
  \/ (exists items,
        lookup_key "iab_categories" d = Some (JList items)
        /\ items <> []
        /\ Forall2 has_category items cats).

Record chapter_view := {
  cv_start : jval;
  cv_stop : jval;
  cv_categories : list string;
  cv_summary : jval
}.

Definition has_header (chapter : jval) (start stop : jval) (cats : list string)
    : Prop :=
  exists d,
    chapter = JDict d
    /\ lookup_key "start_timecode_smpte" d = Some start
    /\ lookup_key "end_timecode_smpte" d = Some stop
    /\ has_categories d cats.

Definition shows (chapter : jval) (v : chapter_view) : Prop :=
  has_header chapter (cv_start v) (cv_stop v) (cv_categories v)
  /\ subscript chapter "summary" = inr (cv_summary v).

Definition header (start stop : jval) (cats : list string) : event :=
  Printed "[{} - {}] {}" [start; stop; JStr (Str.join ", " cats)].

Definition block (v : chapter_view) : list event :=
  [header (cv_start v) (cv_stop v) (cv_categories v);
   Printed "{}" [cv_summary v];
   Printed "" []].

(** A small result document: a chapter with two categories, and one
    without [iab_categories]; and a chapter that lacks its summary. *)
Definition chapter_with_categories : jval :=
  JDict [("start_timecode_smpte", JStr "00:00:00:00");
         ("end_timecode_smpte", JStr "00:00:12:10");
         ("iab_categories",
          JList [JDict [("id", JStr "324"); ("category", JStr "Movies")];
                 JDict [("id", JStr "640"); ("category", JStr "Drama")]]);
         ("summary", JStr "A man drives along the coast.")].

Definition chapter_without_categories : jval :=
  JDict [("start_timecode_smpte", JStr "00:00:12:10");
         ("end_timecode_smpte", JStr "00:00:31:02");
         ("summary", JStr "Two detectives talk in an office.")].

Definition chapter_without_summary : jval :=
  JDict [("start_timecode_smpte", JStr "00:00:31:02");
         ("end_timecode_smpte", JStr "00:00:40:00");
         ("iab_categories", JList [])].

Definition view_with_categories : chapter_view :=
  {| cv_start := JStr "00:00:00:00"; cv_stop := JStr "00:00:12:10";
     cv_categories := ["Movies"; "Drama"];
     cv_summary := JStr "A man drives along the coast." |}.

Definition view_without_categories : chapter_view :=
  {| cv_start := JStr "00:00:12:10"; cv_stop := JStr "00:00:31:02";
     cv_categories := [];
     cv_summary := JStr "Two detectives talk in an office." |}.

Definition holding (name : string) (v : jval) : state :=
  {| vars := {[name := v]}; log := [] |}.

(** A namespace in which the cells before line 160 have run. *)
Definition before_upload : state :=
  {| vars := {["data_prefix" := JStr "bda-workshop/video";
               "data_bucket" := JStr "bda-workshop-bucket";
               "sample_video_movie" := JStr "clips/raw/NetflixMeridian.mp4"]};
     log := [] |}.

End Lab1Cells.

(** ** Lab 2: the cells around the polling
    (video-blueprint-with-osod.py) *)

Module Lab2Cells.
Import Json Nb.
Local Open Scope nb_scope.





Section Cells.
Variable out : outside.
Variable repr : jval -> string.
Variable urlparse_path : string -> option string.
(** [bda_utils.data_prefix], set by the utility class. *)
Variable data_prefix : jval.

Definition py_str (v : jval) : string :=
  match v with
  | JStr s => s
  | _ => repr v
  end.




(** Lines 319-329. *)
Definition load_results : N unit :=
  uri <~ read_var "output_config_uri" ;;
  config <~ call_out out "read_json_from_s3" (ReadJsonS3 uri) ;;
  assign "config_data" config ;;;
  path <~ Lab1Cells.first_output_path "custom_output_path" ;;
  assign "custom_output_path" path ;;;
  path <~ read_var "custom_output_path" ;;
  doc <~ call_out out "read_json_from_s3" (ReadJsonS3 path) ;;
  assign "result_data" doc ;;;
  doc <~ read_var "result_data" ;;
  call_out out "json.dump" (SaveJson "bda_results.json" doc) ;;;
  emit (Printed "Saved video object detection results to: bda_results.json" []).

(** Line 451. *)
Definition delete_results : N unit :=
  config <~ read_var "output_config_uri" ;;
  folder <~ lift (method_replace config "job_metadata.json" "") ;;
  path <~ lift (match urlparse_path folder with
                | Some p => inr p
                | None => inl ValueError
                end) ;;
  call_out out "delete_s3_folder" (DeleteS3Folder [JStr (Str.lstrip "/" path)]) ;;;
  ret tt.
End Cells.

(** An object store that holds the job metadata of one job and its custom
    output, and refuses everything else. *)
Definition bucket_with_results : outside :=
  fun c =>
    match c with
    | ReadJsonS3 (JStr "s3://b/out/job_metadata.json") =>
        Some (JDict
                [("job_id", JStr "job-1");
                 ("output_metadata",
                  JList [JDict [("asset_id", JInt 0);
                                ("segment_metadata",
                                 JList [JDict [("custom_output_status", JStr "MATCH");
                                               ("custom_output_path",
                                                JStr "s3://b/out/custom/result.json")]])]])])
    | ReadJsonS3 (JStr "s3://b/out/custom/result.json") =>
        Some (JDict [("chapters", JList [])])
    | SaveJson _ _ => Some JNull
    | _ => None
    end.

End Lab2Cells.

(** * Properties *)

Import Py.

(** ** Counting over traces *)

Lemma queries_app (a b : list event) :
  queries (a ++ b) = queries a + queries b.
Proof. unfold queries. by rewrite List.filter_app, length_app. Qed.

Lemma sleeps_app (a b : list event) : sleeps (a ++ b) = sleeps a ++ sleeps b.
Proof. apply omap_app. Qed.

Lemma handles_app (a b : list event) :
  handles (a ++ b) = handles a ++ handles b.
Proof. apply omap_app. Qed.

Lemma py_in_elem (s : string) (l : list string) :
  s ∈ l -> py_in (PStr s) l = true.
Proof.
  intros Hs. unfold py_in. apply existsb_exists. exists s. split.
  - by apply list_elem_of_In.
  - cbn. by apply bool_decide_eq_true.
Qed.

(** Evaluating straight-line cell code: project the fields of the world
    under construction and read back the names just assigned. *)
Ltac step_cell :=
  repeat first
    [ progress cbn [ns trace]
    | rewrite lookup_insert_eq
    | rewrite lookup_insert_ne by done ].

(** ** Lab 1: one pass through the loop body *)

Section Lab1Body.
Variable svc : service.

Lemma poll_once_reply (w : world) (arn : pyval) (resp : gmap string pyval) :
  ns w !! "invocation_arn" = Some arn ->
  svc arn (queries (trace w)) = Reply resp ->
  Lab1.poll_once svc w = Ok tt (Lab1.after_round arn w resp).
Proof.
  intros Harn Hsvc.
  unfold Lab1.poll_once, bind, read_var, get_data_automation_status.
  rewrite Harn. cbn [ns trace]. rewrite Hsvc.
  unfold assign at 1. cbn [ns trace].
  rewrite lookup_insert_eq.
  unfold py_get, ret, assign, emit. cbn [ns trace].
  rewrite lookup_insert_eq.
  unfold Lab1.after_round, Lab1.round, Lab1.status_of.
  cbn [ns trace]. by rewrite <- !app_assoc.
Qed.

Lemma poll_once_fault (w : world) (arn : pyval) (msg : string) :
  ns w !! "invocation_arn" = Some arn ->
  svc arn (queries (trace w)) = Fault msg ->
  Lab1.poll_once svc w =
    Raise (TransportError msg)
          {| ns := ns w; trace := trace w ++ [EQuery arn] |}.
Proof.
  intros Harn Hsvc.
  unfold Lab1.poll_once, bind, read_var, get_data_automation_status.
  rewrite Harn. cbn [ns trace]. by rewrite Hsvc.
Qed.
End Lab1Body.

(** ** Lab 1: the world after some passes *)

Section Lab1Rounds.
Variable arn : pyval.

Lemma after_rounds_cons resp resps w :
  Lab1.after_rounds arn (resp :: resps) w =
  Lab1.after_rounds arn resps (Lab1.after_round arn w resp).
Proof. reflexivity. Qed.

Lemma after_rounds_snoc resps resp w :
  Lab1.after_rounds arn (resps ++ [resp]) w =
  Lab1.after_round arn (Lab1.after_rounds arn resps w) resp.
Proof. unfold Lab1.after_rounds. by rewrite foldl_app. Qed.

Lemma after_rounds_trace resps w :
  trace (Lab1.after_rounds arn resps w) =
  trace w ++ concat (map (Lab1.round arn) resps).
Proof.
  revert w. induction resps as [|resp resps IH]; intros w.
  - cbn. by rewrite app_nil_r.
  - rewrite after_rounds_cons, IH. cbn [Lab1.after_round trace map concat].
    by rewrite <- app_assoc.
Qed.

(** The loop assigns two names and no other. *)
Lemma after_rounds_frame resps w x :
  x <> "status" -> x <> "status_response" ->
  ns (Lab1.after_rounds arn resps w) !! x = ns w !! x.
Proof.
  intros H1 H2. revert w.
  induction resps as [|resp resps IH]; intros w; [done|].
  rewrite after_rounds_cons, IH. cbn [Lab1.after_round ns].
  by rewrite !lookup_insert_ne.
Qed.

Lemma after_rounds_last resps resp w :
  ns (Lab1.after_rounds arn (resps ++ [resp]) w) !! "status"
    = Some (Lab1.status_of resp) /\
  ns (Lab1.after_rounds arn (resps ++ [resp]) w) !! "status_response"
    = Some (PDict resp).
Proof.
  rewrite after_rounds_snoc. cbn [Lab1.after_round ns]. split.
  - by rewrite lookup_insert_eq.
  - rewrite lookup_insert_ne by done. by rewrite lookup_insert_eq.
Qed.

Lemma queries_rounds resps :
  queries (concat (map (Lab1.round arn) resps)) = length resps.
Proof.
  induction resps as [|resp resps IH]; [done|].
  cbn [map concat]. rewrite queries_app, IH. reflexivity.
Qed.

Lemma sleeps_rounds resps :
  sleeps (concat (map (Lab1.round arn) resps)) = replicate (length resps) 5%Z.
Proof.
  induction resps as [|resp resps IH]; [done|].
  cbn [map concat]. rewrite sleeps_app, IH. reflexivity.
Qed.

Lemma handles_rounds resps :
  handles (concat (map (Lab1.round arn) resps)) = replicate (length resps) arn.
Proof.
  induction resps as [|resp resps IH]; [done|].
  cbn [map concat]. rewrite handles_app, IH. reflexivity.
Qed.
End Lab1Rounds.

(** ** Lab 1: the loop *)

Section Lab1Loop.
Variable svc : service.

Lemma while_status_exit w st fuel :
  ns w !! "status" = Some st ->
  py_in st Lab1.terminal_states = true ->
  Lab1.while_status svc fuel w = Exited w.
Proof.
  intros Hst Hin. destruct fuel; cbn [Lab1.while_status];
    unfold read_var; by rewrite Hst, Hin.
Qed.

Lemma while_status_running w st :
  ns w !! "status" = Some st ->
  py_in st Lab1.terminal_states = false ->
  Lab1.while_status svc 0 w = Running w.
Proof.
  intros Hst Hin. cbn [Lab1.while_status]. unfold read_var.
  by rewrite Hst, Hin.
Qed.

Lemma while_status_fault w st arn msg fuel :
  ns w !! "status" = Some st ->
  py_in st Lab1.terminal_states = false ->
  ns w !! "invocation_arn" = Some arn ->
  svc arn (queries (trace w)) = Fault msg ->
  Lab1.while_status svc (S fuel) w =
    Raised (TransportError msg)
           {| ns := ns w; trace := trace w ++ [EQuery arn] |}.
Proof.
  intros Hst Hin Harn Hsvc. cbn [Lab1.while_status]. unfold read_var at 1.
  rewrite Hst, Hin. by rewrite (poll_once_fault svc w arn msg).
Qed.

Lemma while_status_rounds arn resps : forall w fuel,
  ns w !! "invocation_arn" = Some arn ->
  (exists st, ns w !! "status" = Some st
              /\ py_in st Lab1.terminal_states = false) ->
  Lab1.answers svc arn (queries (trace w)) resps ->
  Forall Lab1.pending resps ->
  Lab1.while_status svc (length resps + fuel) w =
  Lab1.while_status svc fuel (Lab1.after_rounds arn resps w).
Proof.
  induction resps as [|resp resps IH]; intros w fuel Harn [st [Hst Hin]] Hans Hpend.
  - reflexivity.
  - apply Forall_cons in Hpend as [Hp Hpend].
    cbn [length Nat.add Lab1.while_status]. unfold read_var at 1.
    rewrite Hst, Hin.
    assert (svc arn (queries (trace w)) = Reply resp) as Hsvc.
    { specialize (Hans 0%nat resp eq_refl). by rewrite Nat.add_0_r in Hans. }
    rewrite (poll_once_reply svc w arn resp Harn Hsvc).
    rewrite after_rounds_cons. apply IH.
    + cbn [Lab1.after_round ns]. by rewrite !lookup_insert_ne.
    + exists (Lab1.status_of resp). split; [|exact Hp].
      cbn [Lab1.after_round ns]. by rewrite lookup_insert_eq.
    + intros j r Hj. cbn [Lab1.after_round trace].
      rewrite queries_app. cbn.
      specialize (Hans (S j) r Hj).
      by replace (queries (trace w) + 1 + j)%nat
        with (queries (trace w) + S j)%nat by lia.
    + exact Hpend.
Qed.

Lemma after_rounds_still_pending arn resps w :
  (exists st, ns w !! "status" = Some st
              /\ py_in st Lab1.terminal_states = false) ->
  Forall Lab1.pending resps ->
  exists st, ns (Lab1.after_rounds arn resps w) !! "status" = Some st
             /\ py_in st Lab1.terminal_states = false.
Proof.
  intros Hw Hpend.
  destruct resps as [|r resps _] using rev_ind; [exact Hw|].
  apply Forall_app in Hpend as [_ Hr]. apply Forall_inv in Hr.
  exists (Lab1.status_of r). split; [|exact Hr].
  apply after_rounds_last.
Qed.

Lemma after_rounds_queries arn resps w :
  queries (trace (Lab1.after_rounds arn resps w)) =
  (queries (trace w) + length resps)%nat.
Proof. by rewrite after_rounds_trace, queries_app, queries_rounds. Qed.

Lemma answers_app_l arn from resps more :
  Lab1.answers svc arn from (resps ++ more) -> Lab1.answers svc arn from resps.
Proof.
  intros H j r Hj. apply H. by apply lookup_app_l_Some.
Qed.

Lemma answers_next arn from resps resp :
  Lab1.answers svc arn from (resps ++ [resp]) ->
  svc arn (from + length resps) = Reply resp.
Proof.
  intros H. apply H. by rewrite lookup_app_r, Nat.sub_diag.
Qed.

(** The first terminal status ends the loop, one pass per response. *)
Lemma while_status_terminal arn resps resp w fuel :
  ns w !! "invocation_arn" = Some arn ->
  (exists st, ns w !! "status" = Some st
              /\ py_in st Lab1.terminal_states = false) ->
  Lab1.answers svc arn (queries (trace w)) (resps ++ [resp]) ->
  Forall Lab1.pending resps ->
  py_in (Lab1.status_of resp) Lab1.terminal_states = true ->
  Lab1.while_status svc (length resps + S fuel) w =
  Exited (Lab1.after_rounds arn (resps ++ [resp]) w).
Proof.
  intros Harn Hw Hans Hpend Hterm.
  rewrite (while_status_rounds arn resps w (S fuel) Harn Hw
             (answers_app_l _ _ _ _ Hans) Hpend).
  destruct (after_rounds_still_pending arn resps w Hw Hpend) as [st [Hst Hin]].
  cbn [Lab1.while_status]. unfold read_var at 1. rewrite Hst, Hin.
  rewrite (poll_once_reply svc _ arn resp).
  - rewrite <- after_rounds_snoc.
    apply (while_status_exit _ (Lab1.status_of resp)); [|exact Hterm].
    apply after_rounds_last.
  - by rewrite after_rounds_frame.
  - rewrite after_rounds_queries. by apply answers_next.
Qed.

(** A failing status call ends the loop with the exception, right after
    the call. *)
Lemma while_status_transport arn resps msg w fuel :
  ns w !! "invocation_arn" = Some arn ->
  (exists st, ns w !! "status" = Some st
              /\ py_in st Lab1.terminal_states = false) ->
  Lab1.answers svc arn (queries (trace w)) resps ->
  Forall Lab1.pending resps ->
  svc arn (queries (trace w) + length resps) = Fault msg ->
  Lab1.while_status svc (length resps + S fuel) w =
  Raised (TransportError msg)
         {| ns := ns (Lab1.after_rounds arn resps w);
            trace := trace (Lab1.after_rounds arn resps w) ++ [EQuery arn] |}.
Proof.
  intros Harn Hw Hans Hpend Hfault.
  rewrite (while_status_rounds arn resps w (S fuel) Harn Hw Hans Hpend).
  destruct (after_rounds_still_pending arn resps w Hw Hpend) as [st [Hst Hin]].
  apply (while_status_fault _ st); try done.
  - by rewrite after_rounds_frame.
  - by rewrite after_rounds_queries.
Qed.

(** As long as no terminal status is seen the loop goes on. *)
Lemma while_status_pending arn resps w :
  ns w !! "invocation_arn" = Some arn ->
  (exists st, ns w !! "status" = Some st
              /\ py_in st Lab1.terminal_states = false) ->
  Lab1.answers svc arn (queries (trace w)) resps ->
  Forall Lab1.pending resps ->
  Lab1.while_status svc (length resps) w =
  Running (Lab1.after_rounds arn resps w).
Proof.
  intros Harn Hw Hans Hpend.
  rewrite <- (Nat.add_0_r (length resps)).
  rewrite (while_status_rounds arn resps w 0 Harn Hw Hans Hpend).
  destruct (after_rounds_still_pending arn resps w Hw Hpend) as [st [Hst Hin]].
  by apply (while_status_running _ st).
Qed.

Lemma py_in_terminal st :
  py_in st Lab1.terminal_states = true ->
  exists s, st = PStr s /\ s ∈ Lab1.terminal_states.
Proof.
  unfold py_in. rewrite existsb_exists. intros [x [Hx Heq]].
  destruct st as [|t|d]; cbn in Heq; try done.
  apply bool_decide_eq_true in Heq. subst x.
  exists t. split; [done|]. by apply list_elem_of_In.
Qed.

Lemma answers_cons arn from resp resps :
  svc arn from = Reply resp ->
  Lab1.answers svc arn (from + 1) resps ->
  Lab1.answers svc arn from (resp :: resps).
Proof.
  intros H0 H [|j] r Hj; cbn in Hj.
  - rewrite Nat.add_0_r. congruence.
  - replace (from + S j)%nat with (from + 1 + j)%nat by lia. by apply H.
Qed.

(** Every run of the loop, whatever the service answers, ends in one of
    the three ways of [Lab1.ends]. *)
Lemma while_status_ends arn fuel : forall w,
  ns w !! "invocation_arn" = Some arn ->
  is_Some (ns w !! "status") ->
  Lab1.ends svc arn w fuel (Lab1.while_status svc fuel w).
Proof.
  induction fuel as [|fuel IH]; intros w Harn [st Hst].
  - cbn [Lab1.while_status]. unfold read_var. rewrite Hst.
    destruct (py_in st Lab1.terminal_states) eqn:Hin.
    + destruct (py_in_terminal st Hin) as [s [-> Hs]].
      by apply (Lab1.ends_exited svc arn w 0 [] s).
    + by apply (Lab1.ends_running svc arn w 0 []).
  - cbn [Lab1.while_status]. unfold read_var at 1. rewrite Hst.
    destruct (py_in st Lab1.terminal_states) eqn:Hin.
    + destruct (py_in_terminal st Hin) as [s [-> Hs]].
      apply (Lab1.ends_exited svc arn w (S fuel) [] s); try done.
      cbn. lia.
    + destruct (svc arn (queries (trace w))) as [resp|msg] eqn:Hsvc.
      * rewrite (poll_once_reply svc w arn resp Harn Hsvc).
        assert (queries (trace (Lab1.after_round arn w resp))
                = (queries (trace w) + 1)%nat) as Hq.
        { cbn [Lab1.after_round trace]. by rewrite queries_app. }
        assert (Lab1.ends svc arn (Lab1.after_round arn w resp) fuel
                  (Lab1.while_status svc fuel (Lab1.after_round arn w resp)))
          as Hends.
        { apply IH; cbn [Lab1.after_round ns].
          - by rewrite !lookup_insert_ne.
          - rewrite lookup_insert_eq. by eexists. }
        destruct Hends as [resps s Hans Hlen Hs Hin'|resps Hans Hlen
                          |resps msg Hans Hlen Hfault];
          rewrite Hq in *; rewrite <- after_rounds_cons.
        -- apply (Lab1.ends_exited _ _ _ _ (resp :: resps) s); try done.
           ++ by apply answers_cons.
           ++ cbn. lia.
        -- apply (Lab1.ends_running _ _ _ _ (resp :: resps)).
           ++ by apply answers_cons.
           ++ cbn. lia.
        -- apply (Lab1.ends_raised _ _ _ _ (resp :: resps) msg).
           ++ by apply answers_cons.
           ++ cbn. lia.
           ++ cbn [length].
              by replace (queries (trace w) + S (length resps))%nat
                with (queries (trace w) + 1 + length resps)%nat by lia.
      * rewrite (poll_once_fault svc w arn msg Harn Hsvc).
        apply (Lab1.ends_raised svc arn w (S fuel) [] msg).
        -- by intros j r Hj.
        -- cbn. lia.
        -- by rewrite Nat.add_0_r.
Qed.

(** Line 217 makes the condition true and touches nothing else. *)
Lemma poll_unfold fuel w :
  Lab1.poll svc fuel w = Lab1.while_status svc fuel (Lab1.initialised w).
Proof. reflexivity. Qed.

Lemma initialised_arn w arn :
  ns w !! "invocation_arn" = Some arn ->
  ns (Lab1.initialised w) !! "invocation_arn" = Some arn.
Proof. intros H. cbn. by rewrite !lookup_insert_ne. Qed.

Lemma initialised_status w :
  exists st, ns (Lab1.initialised w) !! "status" = Some st
             /\ py_in st Lab1.terminal_states = false.
Proof.
  exists PNone. split; [|done]. cbn.
  rewrite lookup_insert_ne by done. by rewrite lookup_insert_eq.
Qed.
End Lab1Loop.

(** ** Lab 1: what every run looks like *)

Section Lab1Runs.
Variable svc : service.

Lemma initialised_frame w x :
  x <> "status" -> x <> "status_response" ->
  ns (Lab1.initialised w) !! x = ns w !! x.
Proof. intros H1 H2. cbn. by rewrite !lookup_insert_ne. Qed.

Lemma poll_ends arn fuel w :
  ns w !! "invocation_arn" = Some arn ->
  Lab1.ends svc arn (Lab1.initialised w) fuel (Lab1.poll svc fuel w).
Proof.
  intros Harn. rewrite poll_unfold. apply while_status_ends.
  - by apply initialised_arn.
  - destruct (initialised_status w) as [st [Hst _]]. by exists st.
Qed.

(** The effects of a run are whole passes, followed by at most one
    status call that failed; the namespace is that of the passes. *)
Lemma ends_world arn w fuel r :
  Lab1.ends svc arn w fuel r ->
  exists resps tail,
    trace (world_of r) = trace w ++ concat (map (Lab1.round arn) resps) ++ tail
    /\ (tail = [] \/ tail = [EQuery arn])
    /\ ns (world_of r) = ns (Lab1.after_rounds arn resps w).
Proof.
  intros [resps s _ _ _ _|resps _ _|resps msg _ _ _]; cbn [world_of ns trace].
  - exists resps, []. rewrite app_nil_r, after_rounds_trace. auto.
  - exists resps, []. rewrite app_nil_r, after_rounds_trace. auto.
  - exists resps, [EQuery arn]. rewrite after_rounds_trace, <- app_assoc. auto.
Qed.

Lemma poll_shape arn w fuel :
  ns w !! "invocation_arn" = Some arn ->
  exists resps tail,
    trace (world_of (Lab1.poll svc fuel w))
      = trace w ++ concat (map (Lab1.round arn) resps) ++ tail
    /\ (tail = [] \/ tail = [EQuery arn])
    /\ ns (world_of (Lab1.poll svc fuel w))
        = ns (Lab1.after_rounds arn resps (Lab1.initialised w)).
Proof.
  intros Harn. exact (ends_world arn _ fuel _ (poll_ends arn fuel w Harn)).
Qed.

Lemma poll_frame arn w fuel x :
  ns w !! "invocation_arn" = Some arn ->
  x <> "status" -> x <> "status_response" ->
  ns (world_of (Lab1.poll svc fuel w)) !! x = ns w !! x.
Proof.
  intros Harn H1 H2.
  destruct (poll_shape arn w fuel Harn) as [resps [tail [_ [_ Hns]]]].
  by rewrite Hns, after_rounds_frame, initialised_frame.
Qed.

Lemma while_status_first_query arn w st fuel :
  ns w !! "invocation_arn" = Some arn ->
  ns w !! "status" = Some st ->
  py_in st Lab1.terminal_states = false ->
  exists rest,
    trace (world_of (Lab1.while_status svc (S fuel) w))
    = trace w ++ EQuery arn :: rest.
Proof.
  intros Harn Hst Hin.
  pose proof (while_status_ends svc arn (S fuel) w Harn (mk_is_Some _ _ Hst))
    as Hends.
  destruct Hends as [resps s _ _ Hs Hel|resps _ Hlen|resps msg _ _ _];
    cbn [world_of trace].
  - destruct resps as [|r resps].
    + cbn in Hs. rewrite Hst in Hs. injection Hs as ->.
      rewrite (py_in_elem s _ Hel) in Hin. discriminate.
    + rewrite after_rounds_trace. by eexists.
  - destruct resps as [|r resps]; [done|].
    rewrite after_rounds_trace. by eexists.
  - destruct resps as [|r resps].
    + by exists [].
    + rewrite after_rounds_trace. cbn [map concat Lab1.round].
      rewrite <- app_assoc. by eexists.
Qed.
End Lab1Runs.

(** ** The poller of lab 2 *)

Section PollerFacts.
Import Poller.
Variable query : JobHandle -> nat -> answer.
Variable handle : JobHandle.
Variables success failure : gset string.
Variable delay : Z.

Lemma waits_S n :
  waits handle delay (S n) = Query handle :: Sleep delay :: waits handle delay n.
Proof. reflexivity. Qed.

Lemma queries_waits n tr :
  Poller.queries (waits handle delay n ++ tr) = (n + Poller.queries tr)%nat.
Proof.
  induction n as [|n IH]; [done|].
  rewrite waits_S. unfold Poller.queries in *.
  cbn [app List.filter length]. by rewrite IH.
Qed.

Lemma sleeps_waits n tr :
  Poller.sleeps (waits handle delay n ++ tr) = replicate n delay ++ Poller.sleeps tr.
Proof.
  induction n as [|n IH]; [done|].
  rewrite waits_S. unfold Poller.sleeps in *.
  cbn [app omap list_omap replicate]. by rewrite IH.
Qed.

Lemma handles_waits n tr :
  Poller.handles (waits handle delay n ++ tr)
  = replicate n handle ++ Poller.handles tr.
Proof.
  induction n as [|n IH]; [done|].
  rewrite waits_S. unfold Poller.handles in *.
  cbn [app omap list_omap replicate]. by rewrite IH.
Qed.

(** One pending status with budget left: wait and go on. *)
Lemma iterate_pending s left i :
  query handle i = Status s ->
  pending success failure s ->
  iterate query handle success failure delay (S left) i =
    (Query handle :: Sleep delay
       :: (iterate query handle success failure delay left (S i)).1,
     (iterate query handle success failure delay left (S i)).2).
Proof.
  intros Hq [Hs Hf]. cbn [iterate]. rewrite Hq.
  rewrite !decide_False by done.
  by destruct (iterate query handle success failure delay left (S i)).
Qed.

Lemma iterate_waits sts : forall left i,
  answers query handle i sts ->
  Forall (pending success failure) sts ->
  iterate query handle success failure delay (length sts + left) i =
    (waits handle delay (length sts)
       ++ (iterate query handle success failure delay left (i + length sts)).1,
     (iterate query handle success failure delay left (i + length sts)).2).
Proof.
  induction sts as [|s sts IH]; intros left i Hans Hpend.
  - cbn. rewrite Nat.add_0_r.
    by destruct (iterate query handle success failure delay left i).
  - apply Forall_cons in Hpend as [Hp Hpend].
    cbn [length Nat.add].
    rewrite (iterate_pending s); [|specialize (Hans 0%nat s eq_refl);
      by rewrite Nat.add_0_r in Hans|done].
    rewrite IH; [|intros j r Hj; specialize (Hans (S j) r Hj);
      by replace (S i + j)%nat with (i + S j)%nat by lia|done].
    cbn [fst snd]. rewrite waits_S.
    by replace (S i + length sts)%nat with (i + S (length sts))%nat by lia.
Qed.

Lemma iterate_terminal s left i :
  query handle i = Status s ->
  code s ∈ success \/ code s ∈ failure ->
  iterate query handle success failure delay left i =
    ([Query handle],
     if decide (code s ∈ success) then Success (output_location s)
     else Failure (Remote (code s)) (error_message s)).
Proof.
  intros Hq Hterm. destruct left; cbn [iterate]; rewrite Hq;
    destruct (decide (code s ∈ success)); try done;
    destruct (decide (code s ∈ failure)); try done; tauto.
Qed.

Lemma iterate_transport msg left i :
  query handle i = TransportError msg ->
  iterate query handle success failure delay left i =
    ([Query handle], Failure Transport (Some msg)).
Proof. intros Hq. destruct left; cbn [iterate]; by rewrite Hq. Qed.

Lemma iterate_budget_spent s i :
  query handle i = Status s ->
  pending success failure s ->
  iterate query handle success failure delay 0 i = ([Query handle], Timeout s).
Proof.
  intros Hq [Hs Hf]. cbn [iterate]. rewrite Hq. by rewrite !decide_False.
Qed.

(** The number of queries never exceeds the budget. *)
Lemma iterate_bound left : forall i,
  (1 <= Poller.queries (iterate query handle success failure delay left i).1
     <= S left)%nat.
Proof.
  induction left as [|left IH]; intros i; cbn [iterate];
    destruct (query handle i) as [s|msg]; try (cbn; lia);
    destruct (decide (code s ∈ success)); try (cbn; lia);
    destruct (decide (code s ∈ failure)); try (cbn; lia).
  specialize (IH (S i)).
  destruct (iterate query handle success failure delay left (S i)) as [tr r].
  cbn in *. lia.
Qed.

Lemma wait_for_completion_valid max_iterations :
  (0 < max_iterations)%nat -> (0 < delay)%Z ->
  wait_for_completion query handle success failure delay max_iterations =
    ((iterate query handle success failure delay (max_iterations - 1) 0).1,
     Returned (iterate query handle success failure delay (max_iterations - 1) 0).2).
Proof.
  intros Hm Hd. unfold wait_for_completion.
  rewrite decide_False by lia.
  by destruct (iterate query handle success failure delay (max_iterations - 1) 0).
Qed.
End PollerFacts.

(** ** Concrete services *)

Lemma replay_answers codes last arn :
  Lab1.answers (Lab1.replay codes last) arn 0 (map Lab1.status_only codes).
Proof.
  intros j r Hj. unfold Lab1.replay. cbn [Nat.add]. f_equal.
  change (map Lab1.status_only codes) with (Lab1.status_only <$> codes) in Hj.
  rewrite list_lookup_fmap in Hj.
  destruct (codes !! j) as [c|] eqn:Hc; [|done].
  injection Hj as <-. by rewrite (nth_lookup_Some _ _ last c Hc).
Qed.

(** * Lab 1 *)

(** C8: the polling loop of lab 1 always performs at least one status
    query (the status is [None] when the condition is first tested, and
    [None] is not a terminal status), and whenever the loop is left
    normally the status last seen is one of "Success", "ServiceError" and
    "ClientError": the loop cannot exit while the job is pending. *)
Theorem lab1_queries_once_and_exits_terminal
    (svc : service) (arn : pyval) (w : world) (fuel : nat) :
  ns w !! "invocation_arn" = Some arn ->
  (exists rest,
     trace (world_of (Lab1.poll svc (S fuel) w)) = trace w ++ EQuery arn :: rest)
  /\ (forall n w',
        Lab1.poll svc n w = Exited w' ->
        (queries (trace w) < queries (trace w'))%nat
        /\ exists s, ns w' !! "status" = Some (PStr s)
                     /\ s ∈ Lab1.terminal_states).
Proof.
  intros Harn. split.
  - rewrite poll_unfold.
    destruct (initialised_status w) as [st [Hst Hin]].
    change (trace w) with (trace (Lab1.initialised w)).
    apply (while_status_first_query svc arn _ st); try done.
    by apply initialised_arn.
  - intros n w' Hexit.
    pose proof (poll_ends svc arn n w Harn) as Hends.
    rewrite Hexit in Hends.
    inversion Hends as [resps s _ _ Hs Hel| |]; subst. split.
    + rewrite after_rounds_queries. cbn [Lab1.initialised trace].
      destruct resps as [|r resps]; [|cbn; lia].
      cbn in Hs. rewrite lookup_insert_ne in Hs by done.
      by rewrite lookup_insert_eq in Hs.
    + by exists s.
Qed.

Lemma lab1_queries_once_and_exits_terminal_witness :
  (exists rest,
     trace (world_of (Lab1.poll (Lab1.replay ["InProgress"] "Success") 3
                        (Lab1.submitted "arn:job")))
     = [] ++ EQuery (PStr "arn:job") :: rest)
  /\ (forall n w',
        Lab1.poll (Lab1.replay ["InProgress"] "Success") n
          (Lab1.submitted "arn:job") = Exited w' ->
        (queries [] < queries (trace w'))%nat
        /\ exists s, ns w' !! "status" = Some (PStr s)
                     /\ s ∈ Lab1.terminal_states).
Proof.
  apply (lab1_queries_once_and_exits_terminal
           (Lab1.replay ["InProgress"] "Success") (PStr "arn:job")
           (Lab1.submitted "arn:job") 2).
  reflexivity.
Defined.

(** C7: a run of the lab 1 loop queries one job handle only: the name
    [invocation_arn] still holds the handle it held before, every status
    query of the run is made with that handle, and the loop assigns no name
    other than [status] and [status_response], the status last seen and the
    response it came with. *)
Theorem lab1_single_handle
    (svc : service) (arn : pyval) (w : world) (fuel : nat) :
  ns w !! "invocation_arn" = Some arn ->
  ns (world_of (Lab1.poll svc fuel w)) !! "invocation_arn" = Some arn
  /\ (exists tr n,
        trace (world_of (Lab1.poll svc fuel w)) = trace w ++ tr
        /\ handles tr = replicate n arn)
  /\ (forall x, x <> "status" -> x <> "status_response" ->
        ns (world_of (Lab1.poll svc fuel w)) !! x = ns w !! x).
Proof.
  intros Harn.
  destruct (poll_shape svc arn w fuel Harn) as [resps [tail [Htr [Htail _]]]].
  split; [|split].
  - by rewrite (poll_frame svc arn).
  - exists (concat (map (Lab1.round arn) resps) ++ tail).
    destruct Htail as [-> | ->].
    + exists (length resps). split; [exact Htr|].
      by rewrite app_nil_r, handles_rounds.
    + exists (S (length resps)). split; [exact Htr|].
      rewrite handles_app, handles_rounds. cbn.
      by rewrite replicate_cons_app.
  - intros x H1 H2. by apply (poll_frame svc arn).
Qed.

Lemma lab1_single_handle_witness :
  ns (world_of (Lab1.poll (Lab1.replay ["InProgress"] "Success") 3
                  (Lab1.submitted "arn:job"))) !! "invocation_arn"
    = Some (PStr "arn:job")
  /\ (exists tr n,
        trace (world_of (Lab1.poll (Lab1.replay ["InProgress"] "Success") 3
                           (Lab1.submitted "arn:job"))) = [] ++ tr
        /\ handles tr = replicate n (PStr "arn:job"))
  /\ (forall x, x <> "status" -> x <> "status_response" ->
        ns (world_of (Lab1.poll (Lab1.replay ["InProgress"] "Success") 3
                        (Lab1.submitted "arn:job"))) !! x
        = ns (Lab1.submitted "arn:job") !! x).
Proof.
  apply (lab1_single_handle
           (Lab1.replay ["InProgress"] "Success") (PStr "arn:job")
           (Lab1.submitted "arn:job") 3).
  reflexivity.
Defined.

(** ** Lab 1: after the loop *)

Section Lab1After.
Variable svc : service.
Variable s3 : storage.

(** Lines 227-239 on the response the loop was left with.  The status
    is not looked at. *)
Lemma after_poll_run w resp oc :
  ns w !! "status_response" = Some (PDict resp) ->
  default (PDict ∅) (resp !! "outputConfiguration") = PDict oc ->
  Lab1.after_poll s3 w =
    match s3 (default PNone (oc !! "s3Uri")) with
    | Some doc =>
        Ok tt {| ns := <["config_data" := doc]>
                         (<["output_config" := default PNone (oc !! "s3Uri")]>
                            (ns w));
                 trace := trace w ++
                   [EPrint "Ouput configureation file:"
                      (default PNone (oc !! "s3Uri"));
                    EReadJson (default PNone (oc !! "s3Uri"));
                    EPrint "" doc] |}
    | None =>
        Raise StorageError
          {| ns := <["output_config" := default PNone (oc !! "s3Uri")]> (ns w);
             trace := trace w ++
               [EPrint "Ouput configureation file:"
                  (default PNone (oc !! "s3Uri"));
                EReadJson (default PNone (oc !! "s3Uri"))] |}
    end.
Proof.
  intros Hsr Hoc.
  unfold Lab1.after_poll, Lab1.extract_output_config, Lab1.read_config.
  unfold bind, read_var at 1. rewrite Hsr.
  unfold py_get at 1, ret. rewrite Hoc.
  unfold py_get, ret, assign, read_var, emit, read_json. cbn [ns trace].
  step_cell.
  destruct (s3 (default PNone (oc !! "s3Uri"))) as [doc|]; step_cell;
    by rewrite <- !app_assoc.
Qed.

Lemma poll_first_terminal arn w resps resp fuel :
  ns w !! "invocation_arn" = Some arn ->
  Lab1.answers svc arn (queries (trace w)) (resps ++ [resp]) ->
  Forall Lab1.pending resps ->
  py_in (Lab1.status_of resp) Lab1.terminal_states = true ->
  (length resps < fuel)%nat ->
  Lab1.poll svc fuel w =
    Exited (Lab1.after_rounds arn (resps ++ [resp]) (Lab1.initialised w)).
Proof.
  intros Harn Hans Hpend Hterm Hfuel. rewrite poll_unfold.
  replace fuel with (length resps + S (fuel - S (length resps)))%nat by lia.
  apply while_status_terminal; try done.
  - by apply initialised_arn.
  - apply initialised_status.
Qed.

Lemma poll_transport arn w resps msg fuel :
  ns w !! "invocation_arn" = Some arn ->
  Lab1.answers svc arn (queries (trace w)) resps ->
  Forall Lab1.pending resps ->
  svc arn (queries (trace w) + length resps) = Fault msg ->
  (length resps < fuel)%nat ->
  Lab1.poll svc fuel w =
    Raised (TransportError msg)
      {| ns := ns (Lab1.after_rounds arn resps (Lab1.initialised w));
         trace := trace (Lab1.after_rounds arn resps (Lab1.initialised w))
                    ++ [EQuery arn] |}.
Proof.
  intros Harn Hans Hpend Hfault Hfuel. rewrite poll_unfold.
  replace fuel with (length resps + S (fuel - S (length resps)))%nat by lia.
  apply while_status_transport; try done.
  - by apply initialised_arn.
  - apply initialised_status.
Qed.

Lemma poll_pending arn w resps :
  ns w !! "invocation_arn" = Some arn ->
  Lab1.answers svc arn (queries (trace w)) resps ->
  Forall Lab1.pending resps ->
  Lab1.poll svc (length resps) w =
    Running (Lab1.after_rounds arn resps (Lab1.initialised w)).
Proof.
  intros Harn Hans Hpend. rewrite poll_unfold.
  apply while_status_pending; try done.
  - by apply initialised_arn.
  - apply initialised_status.
Qed.
End Lab1After.

(** The run of lab 1 on the statuses "InProgress", "InProgress",
    "Success". *)
Lemma lab1_three_statuses_run :
  Lab1.poll (Lab1.replay ["InProgress"; "InProgress"; "Success"] "Success") 10
    (Lab1.submitted "arn:job")
  = Exited (Lab1.after_rounds (PStr "arn:job")
              (map Lab1.status_only ["InProgress"; "InProgress"; "Success"])
              (Lab1.initialised (Lab1.submitted "arn:job"))).
Proof.
  apply (poll_first_terminal _ (PStr "arn:job") _
           (map Lab1.status_only ["InProgress"; "InProgress"])
           (Lab1.status_only "Success")).
  - reflexivity.
  - apply (replay_answers ["InProgress"; "InProgress"; "Success"]).
  - by repeat constructor.
  - reflexivity.
  - cbn. lia.
Qed.

(** The lab 1 loop sleeps after the terminal query too: on "InProgress",
    "InProgress", "Success" it makes three queries and three sleeps of 5 s,
    and the sleep is the last thing it does. *)
Lemma lab1_sleeps_after_terminal_status :
  exists w',
    Lab1.poll (Lab1.replay ["InProgress"; "InProgress"; "Success"] "Success") 10
      (Lab1.submitted "arn:job") = Exited w'
    /\ queries (trace w') = 3%nat
    /\ sleeps (trace w') = [5; 5; 5]%Z
    /\ last (trace w') = Some (ESleep 5).
Proof.
  eexists. split; [apply lab1_three_statuses_run|].
  rewrite after_rounds_trace. by vm_compute.
Qed.

(** C3, as the loop of lab 1 has it: the effects of a run are whole
    passes, each of them one status query, the clearing and printing of
    the status, and one sleep of 5 s, followed by at most one status query
    that raised; so every status query that is answered is followed by
    exactly one sleep of 5 s, the one that observes the terminal status
    included.  On the statuses "InProgress", "InProgress", "Success" the
    loop makes exactly 3 queries and 3 sleeps of 5 s and is left with the
    status "Success".  Besides these effects the loop assigns the names
    [status] and [status_response] and no other. *)
Theorem lab1_sleeps_after_every_answer :
  (forall (svc : service) (arn : pyval) (w : world) (fuel : nat),
      ns w !! "invocation_arn" = Some arn ->
      (exists resps tail,
          trace (world_of (Lab1.poll svc fuel w))
            = trace w ++ concat (map (Lab1.round arn) resps) ++ tail
          /\ (tail = [] \/ tail = [EQuery arn]))
      /\ (forall x, x <> "status" -> x <> "status_response" ->
            ns (world_of (Lab1.poll svc fuel w)) !! x = ns w !! x))
  /\ (forall (svc : service) (arn : pyval) (w : world) (fuel : nat)
        (resps : list (gmap string pyval)) (resp : gmap string pyval),
      ns w !! "invocation_arn" = Some arn ->
      Lab1.answers svc arn (queries (trace w)) (resps ++ [resp]) ->
      Forall Lab1.pending resps ->
      py_in (Lab1.status_of resp) Lab1.terminal_states = true ->
      (length resps < fuel)%nat ->
      exists w',
        Lab1.poll svc fuel w = Exited w'
        /\ trace w' = trace w ++ concat (map (Lab1.round arn) resps)
                              ++ Lab1.round arn resp
        /\ queries (trace w') = (queries (trace w) + S (length resps))%nat
        /\ sleeps (trace w') = sleeps (trace w) ++ replicate (S (length resps)) 5%Z)
  /\ (exists w',
        Lab1.poll (Lab1.replay ["InProgress"; "InProgress"; "Success"] "Success")
          10 (Lab1.submitted "arn:job") = Exited w'
        /\ queries (trace w') = 3%nat
        /\ sleeps (trace w') = [5; 5; 5]%Z
        /\ ns w' !! "status" = Some (PStr "Success")).
Proof.
  split; [|split].
  - intros svc arn w fuel Harn. split.
    + destruct (poll_shape svc arn w fuel Harn) as [resps [tail [Htr [Htail _]]]].
      by exists resps, tail.
    + intros x H1 H2. by apply (poll_frame svc arn).
  - intros svc arn w fuel resps resp Harn Hans Hpend Hterm Hfuel.
    eexists. split; [by apply (poll_first_terminal svc arn)|].
    rewrite after_rounds_trace. cbn [Lab1.initialised trace].
    rewrite map_app, concat_app. cbn [map concat]. rewrite app_nil_r.
    split; [done|]. split.
    + rewrite !queries_app, queries_rounds. cbn. lia.
    + rewrite !sleeps_app, sleeps_rounds. cbn.
      by rewrite replicate_cons_app.
  - eexists. split; [apply lab1_three_statuses_run|].
    split; [|split].
    + rewrite after_rounds_trace. by vm_compute.
    + rewrite after_rounds_trace. by vm_compute.
    + apply (after_rounds_last (PStr "arn:job")
               (map Lab1.status_only ["InProgress"; "InProgress"])
               (Lab1.status_only "Success")).
Qed.

Lemma lab1_sleeps_after_every_answer_witness :
  exists w',
    Lab1.poll (Lab1.replay ["InProgress"; "ClientError"] "ClientError") 4
      (Lab1.submitted "arn:job") = Exited w'
    /\ trace w' = [] ++ concat (map (Lab1.round (PStr "arn:job"))
                                 [Lab1.status_only "InProgress"])
                     ++ Lab1.round (PStr "arn:job") (Lab1.status_only "ClientError")
    /\ queries (trace w') = (0 + 2)%nat
    /\ sleeps (trace w') = [] ++ replicate 2 5%Z.
Proof.
  apply (proj1 (proj2 lab1_sleeps_after_every_answer)
           (Lab1.replay ["InProgress"; "ClientError"] "ClientError") (PStr "arn:job")
           (Lab1.submitted "arn:job") 4
           [Lab1.status_only "InProgress"] (Lab1.status_only "ClientError")).
  - reflexivity.
  - apply (replay_answers ["InProgress"; "ClientError"]).
  - repeat constructor.
  - reflexivity.
  - cbn. lia.
Defined.

(** In lab 1 a failing status call is not turned into an outcome of the
    loop: the exception leaves the loop, and the cell with it. *)
Lemma lab1_transport_error_leaves_loop :
  Lab1.poll (Lab1.broken "connection reset") 10 (Lab1.submitted "arn:job")
  = Raised (TransportError "connection reset")
      {| ns := ns (Lab1.initialised (Lab1.submitted "arn:job"));
         trace := [EQuery (PStr "arn:job")] |}
  /\ forall w', Lab1.poll (Lab1.broken "connection reset") 10
                  (Lab1.submitted "arn:job") <> Exited w'.
Proof.
  assert (Lab1.poll (Lab1.broken "connection reset") 10 (Lab1.submitted "arn:job")
          = Raised (TransportError "connection reset")
              {| ns := ns (Lab1.initialised (Lab1.submitted "arn:job"));
                 trace := [EQuery (PStr "arn:job")] |}) as Hrun.
  { rewrite (poll_transport _ (PStr "arn:job") _ [] "connection reset");
      try done. cbn. lia. }
  split; [exact Hrun|]. intros w'. by rewrite Hrun.
Qed.

(** C4, as the loop of lab 1 has it: when the status call raises on the
    i-th query, the loop ends right there, after exactly i queries and the
    i-1 sleeps that followed the earlier ones, with no further sleep and no
    further query; the error is not taken for a pending status.  It is not
    made into an outcome of the loop either: the exception leaves the
    loop, and the cells after it are not run. *)
Theorem lab1_transport_error_propagates
    (svc : service) (s3 : storage) (arn : pyval) (w : world)
    (resps : list (gmap string pyval)) (msg : string) (fuel : nat) :
  ns w !! "invocation_arn" = Some arn ->
  Lab1.answers svc arn (queries (trace w)) resps ->
  Forall Lab1.pending resps ->
  svc arn (queries (trace w) + length resps) = Fault msg ->
  (length resps < fuel)%nat ->
  exists w',
    Lab1.poll svc fuel w = Raised (TransportError msg) w'
    /\ Lab1.cells svc s3 fuel w = Raised (TransportError msg) w'
    /\ trace w' = trace w ++ concat (map (Lab1.round arn) resps) ++ [EQuery arn]
    /\ queries (trace w') = (queries (trace w) + S (length resps))%nat
    /\ sleeps (trace w') = sleeps (trace w) ++ replicate (length resps) 5%Z.
Proof.
  intros Harn Hans Hpend Hfault Hfuel.
  pose proof (poll_transport svc arn w resps msg fuel Harn Hans Hpend Hfault Hfuel)
    as Hrun.
  eexists. split; [exact Hrun|]. split.
  { unfold Lab1.cells. by rewrite Hrun. }
  cbn [trace]. rewrite after_rounds_trace. cbn [Lab1.initialised trace].
  rewrite <- app_assoc. split; [done|]. split.
  - rewrite !queries_app, queries_rounds. cbn. lia.
  - rewrite !sleeps_app, sleeps_rounds. cbn. by rewrite app_nil_r.
Qed.

Lemma lab1_transport_error_propagates_witness :
  exists w',
    Lab1.poll (fun _ i => if decide (i = 1%nat) then Fault "timed out"
                          else Reply (Lab1.status_only "InProgress"))
      5 (Lab1.submitted "arn:job") = Raised (TransportError "timed out") w'
    /\ Lab1.cells (fun _ i => if decide (i = 1%nat) then Fault "timed out"
                              else Reply (Lab1.status_only "InProgress"))
         (fun _ => None) 5 (Lab1.submitted "arn:job")
       = Raised (TransportError "timed out") w'
    /\ trace w' = [] ++ concat (map (Lab1.round (PStr "arn:job"))
                                 [Lab1.status_only "InProgress"])
                     ++ [EQuery (PStr "arn:job")]
    /\ queries (trace w') = (0 + 2)%nat
    /\ sleeps (trace w') = [] ++ replicate 1 5%Z.
Proof.
  apply (lab1_transport_error_propagates
           (fun _ i => if decide (i = 1%nat) then Fault "timed out"
                       else Reply (Lab1.status_only "InProgress"))
           (fun _ => None) (PStr "arn:job") (Lab1.submitted "arn:job")
           [Lab1.status_only "InProgress"] "timed out" 5).
  - reflexivity.
  - intros [|j] r Hj; [by injection Hj as <-|done].
  - repeat constructor.
  - reflexivity.
  - cbn. lia.
Defined.

(** C9: once the lab 1 loop is left, lines 227-238 take
    [outputConfiguration.s3Uri] out of the last status response in the same
    way for all three terminal statuses: a run that ended in "ServiceError"
    or "ClientError" goes down the path of a success, the value is [None]
    (the default of [.get]) when the response carries no output
    configuration, and the read of the result is attempted on that value. *)
Theorem lab1_failure_takes_success_path
    (svc : service) (s3 : storage) (arn : pyval) (w : world)
    (resps : list (gmap string pyval)) (resp oc : gmap string pyval)
    (fuel : nat) :
  ns w !! "invocation_arn" = Some arn ->
  Lab1.answers svc arn (queries (trace w)) (resps ++ [resp]) ->
  Forall Lab1.pending resps ->
  py_in (Lab1.status_of resp) Lab1.terminal_states = true ->
  (length resps < fuel)%nat ->
  default (PDict ∅) (resp !! "outputConfiguration") = PDict oc ->
  (exists rest,
      trace (world_of (Lab1.cells svc s3 fuel w))
      = trace w ++ concat (map (Lab1.round arn) (resps ++ [resp]))
          ++ [EPrint "Ouput configureation file:" (default PNone (oc !! "s3Uri"));
              EReadJson (default PNone (oc !! "s3Uri"))]
          ++ rest)
  /\ ns (world_of (Lab1.cells svc s3 fuel w)) !! "output_config"
     = Some (default PNone (oc !! "s3Uri"))
  /\ (resp !! "outputConfiguration" = None ->
      default PNone (oc !! "s3Uri") = PNone).
Proof.
  intros Harn Hans Hpend Hterm Hfuel Hoc.
  unfold Lab1.cells.
  rewrite (poll_first_terminal svc arn w resps resp fuel Harn Hans Hpend Hterm Hfuel).
  rewrite (after_poll_run s3 _ resp oc); [|apply after_rounds_last|exact Hoc].
  rewrite after_rounds_trace. cbn [Lab1.initialised trace].
  split; [|split].
  - destruct (s3 (default PNone (oc !! "s3Uri"))) as [doc|]; cbn [world_of trace].
    + exists [EPrint "" doc]. by rewrite <- !app_assoc.
    + exists []. by rewrite <- !app_assoc.
  - destruct (s3 (default PNone (oc !! "s3Uri"))) as [doc|]; cbn [world_of ns].
    + rewrite lookup_insert_ne by done. by rewrite lookup_insert_eq.
    + by rewrite lookup_insert_eq.
  - intros Hnone. rewrite Hnone in Hoc. cbn in Hoc. by injection Hoc as <-.
Qed.

Lemma lab1_failure_takes_success_path_witness :
  (exists rest,
      trace (world_of (Lab1.cells
                         (Lab1.replay ["InProgress"; "ServiceError"] "ServiceError")
                         (fun _ => None) 5 (Lab1.submitted "arn:job")))
      = [] ++ concat (map (Lab1.round (PStr "arn:job"))
                        ([Lab1.status_only "InProgress"]
                           ++ [Lab1.status_only "ServiceError"]))
          ++ [EPrint "Ouput configureation file:" (default PNone ((∅ : gmap string pyval) !! "s3Uri"));
              EReadJson (default PNone ((∅ : gmap string pyval) !! "s3Uri"))]
          ++ rest)
  /\ ns (world_of (Lab1.cells
                     (Lab1.replay ["InProgress"; "ServiceError"] "ServiceError")
                     (fun _ => None) 5 (Lab1.submitted "arn:job")))
       !! "output_config"
     = Some (default PNone ((∅ : gmap string pyval) !! "s3Uri"))
  /\ (Lab1.status_only "ServiceError" !! "outputConfiguration" = None ->
      default PNone ((∅ : gmap string pyval) !! "s3Uri") = PNone).
Proof.
  apply (lab1_failure_takes_success_path
           (Lab1.replay ["InProgress"; "ServiceError"] "ServiceError")
           (fun _ => None) (PStr "arn:job") (Lab1.submitted "arn:job")
           [Lab1.status_only "InProgress"] (Lab1.status_only "ServiceError")
           ∅ 5).
  - reflexivity.
  - apply (replay_answers ["InProgress"; "ServiceError"]).
  - repeat constructor.
  - reflexivity.
  - cbn. lia.
  - reflexivity.
Defined.

(** * The poller of lab 2, and the loop of lab 1 next to it *)

Lemma poller_replay_answers codes last handle :
  Poller.answers (Poller.replay codes last) handle 0 (map Poller.bare codes).
Proof.
  intros j s Hj. unfold Poller.replay. cbn [Nat.add]. f_equal.
  change (map Poller.bare codes) with (Poller.bare <$> codes) in Hj.
  rewrite list_lookup_fmap in Hj.
  destruct (codes !! j) as [c|] eqn:Hc; [|done].
  injection Hj as <-. by rewrite (nth_lookup_Some _ _ last c Hc).
Qed.

Lemma iterate_head query handle success failure delay budget i :
  exists rest,
    (Poller.iterate query handle success failure delay budget i).1
    = Poller.Query handle :: rest.
Proof.
  destruct budget as [|budget]; cbn [Poller.iterate];
    destruct (query handle i) as [s|msg]; try (by eexists);
    destruct (decide (Poller.code s ∈ success)); try (by eexists);
    destruct (decide (Poller.code s ∈ failure)); try (by eexists).
  destruct (Poller.iterate query handle success failure delay budget (S i)).
  by eexists.
Qed.

(** C5: called with [max_iterations] = 0 or with a [delay] that is not
    positive, the poller raises the configuration error before the first
    status query: no query is issued and no sleep is made, and nothing is
    tried again. *)
Theorem poller_rejects_configuration
    (query : Poller.JobHandle -> nat -> Poller.answer)
    (handle : Poller.JobHandle) (success failure : gset string)
    (delay : Z) (max_iterations : nat) :
  max_iterations = 0%nat \/ (delay <= 0)%Z ->
  Poller.wait_for_completion query handle success failure delay max_iterations
  = ([], Poller.ConfigurationError).
Proof.
  intros Hbad. unfold Poller.wait_for_completion. by rewrite decide_True.
Qed.

Lemma poller_rejects_configuration_witness :
  Poller.wait_for_completion (Poller.replay [] "Success") "arn:job"
    Poller.completion_states Poller.error_states 0 Poller.lab2_max_iterations
  = ([], Poller.ConfigurationError).
Proof.
  apply poller_rejects_configuration. right. lia.
Defined.

(** C1: when the first status whose code is in the success set or in the
    failure set is the k-th one and k is within [max_iterations], the
    poller makes exactly k status queries and returns the terminal result
    of that status: [Success] with its output location when the code is in
    the success set, [Failure] with its error message and its code when it
    is in the failure set.  The loop of lab 1, whose terminal codes are
    fixed and which has no bound, likewise makes exactly k queries and is
    left holding the k-th response and its status. *)
Theorem first_terminal_status_ends_polling :
  (forall (query : Poller.JobHandle -> nat -> Poller.answer)
      (handle : Poller.JobHandle) (success failure : gset string)
      (delay : Z) (max_iterations : nat)
      (sts : list Poller.JobStatus) (s : Poller.JobStatus),
      (0 < delay)%Z ->
      (length sts < max_iterations)%nat ->
      Poller.answers query handle 0 (sts ++ [s]) ->
      Forall (Poller.pending success failure) sts ->
      Poller.code s ∈ success \/ Poller.code s ∈ failure ->
      exists tr,
        Poller.wait_for_completion query handle success failure delay
          max_iterations
        = (tr, Poller.Returned
                 (if decide (Poller.code s ∈ success)
                  then Poller.Success (Poller.output_location s)
                  else Poller.Failure (Poller.Remote (Poller.code s))
                         (Poller.error_message s)))
        /\ Poller.queries tr = S (length sts))
  /\ (forall (svc : service) (arn : pyval) (w : world) (fuel : nat)
        (resps : list (gmap string pyval)) (resp : gmap string pyval),
      ns w !! "invocation_arn" = Some arn ->
      Lab1.answers svc arn (queries (trace w)) (resps ++ [resp]) ->
      Forall Lab1.pending resps ->
      py_in (Lab1.status_of resp) Lab1.terminal_states = true ->
      (length resps < fuel)%nat ->
      exists w',
        Lab1.poll svc fuel w = Exited w'
        /\ queries (trace w') = (queries (trace w) + S (length resps))%nat
        /\ ns w' !! "status" = Some (Lab1.status_of resp)
        /\ ns w' !! "status_response" = Some (PDict resp)).
Proof.
  split.
  - intros query handle success failure delay max_iterations sts s
      Hd Hk Hans Hpend Hterm.
    rewrite wait_for_completion_valid by lia.
    replace (max_iterations - 1)%nat
      with (length sts + (max_iterations - 1 - length sts))%nat by lia.
    rewrite (iterate_waits query handle success failure delay sts);
      [|intros j r Hj; apply Hans; by apply lookup_app_l_Some|done].
    rewrite (iterate_terminal query handle success failure delay s);
      [|apply Hans; by rewrite lookup_app_r, Nat.sub_diag|done].
    cbn [fst snd]. eexists. split; [reflexivity|].
    rewrite queries_waits.
    change (Poller.queries [Poller.Query handle]) with 1%nat. lia.
  - intros svc arn w fuel resps resp Harn Hans Hpend Hterm Hfuel.
    eexists. split; [by apply (poll_first_terminal svc arn)|].
    split; [|apply after_rounds_last].
    rewrite after_rounds_queries, length_app.
    cbn [Lab1.initialised trace length]. lia.
Qed.

Lemma first_terminal_status_ends_polling_witness :
  exists tr,
    Poller.wait_for_completion
      (Poller.replay ["InProgress"; "ServiceError"] "ServiceError") "arn:job"
      Poller.completion_states Poller.error_states
      Poller.lab2_delay Poller.lab2_max_iterations
    = (tr, Poller.Returned
             (if decide (Poller.code (Poller.bare "ServiceError")
                           ∈ Poller.completion_states)
              then Poller.Success (Poller.output_location (Poller.bare "ServiceError"))
              else Poller.Failure
                     (Poller.Remote (Poller.code (Poller.bare "ServiceError")))
                     (Poller.error_message (Poller.bare "ServiceError"))))
    /\ Poller.queries tr = 2%nat.
Proof.
  apply (proj1 first_terminal_status_ends_polling
           (Poller.replay ["InProgress"; "ServiceError"] "ServiceError")
           "arn:job" Poller.completion_states Poller.error_states
           Poller.lab2_delay Poller.lab2_max_iterations
           [Poller.bare "InProgress"] (Poller.bare "ServiceError")).
  - reflexivity.
  - cbn. unfold Poller.lab2_max_iterations. lia.
  - apply (poller_replay_answers ["InProgress"; "ServiceError"]).
  - apply Forall_singleton. split; cbn; by vm_compute.
  - right. by vm_compute.
Defined.

(** The loop of lab 1 has no iteration budget: against a job that stays
    "InProgress" it has made a fourth query and a fourth sleep and is
    still going, whatever bound of three queries one had in mind. *)
Lemma lab1_polls_beyond_any_budget :
  exists w',
    Lab1.poll (Lab1.replay [] "InProgress") 4 (Lab1.submitted "arn:job")
    = Running w'
    /\ queries (trace w') = 4%nat
    /\ sleeps (trace w') = [5; 5; 5; 5]%Z.
Proof.
  exists (Lab1.after_rounds (PStr "arn:job")
            (replicate 4 (Lab1.status_only "InProgress"))
            (Lab1.initialised (Lab1.submitted "arn:job"))).
  split.
  - apply (poll_pending _ (PStr "arn:job") _
             (replicate 4 (Lab1.status_only "InProgress"))).
    + reflexivity.
    + intros j r Hj. apply lookup_replicate in Hj as [-> _].
      unfold Lab1.replay. by destruct j.
    + by repeat constructor.
  - rewrite after_rounds_trace. by vm_compute.
Qed.

(** C2, as the code has it: the poller of lab 2 stops when its budget is
    spent.  When none of the first [max_iterations] statuses has a code in
    the success set or in the failure set, it makes exactly
    [max_iterations] queries and [max_iterations] - 1 sleeps and returns
    [Timeout] with the last status; and on every input it ends, either with
    the configuration error before any query or with one of the three
    results after at most [max_iterations] queries.  The loop of lab 1 has
    no such budget: as long as the statuses are pending it goes on, one
    query and one sleep of 5 s per status. *)
Theorem budget_ends_the_poller_not_lab1 :
  (forall (query : Poller.JobHandle -> nat -> Poller.answer)
      (handle : Poller.JobHandle) (success failure : gset string)
      (delay : Z) (max_iterations : nat)
      (sts : list Poller.JobStatus) (s : Poller.JobStatus),
      (0 < delay)%Z ->
      S (length sts) = max_iterations ->
      Poller.answers query handle 0 (sts ++ [s]) ->
      Forall (Poller.pending success failure) (sts ++ [s]) ->
      exists tr,
        Poller.wait_for_completion query handle success failure delay
          max_iterations
        = (tr, Poller.Returned (Poller.Timeout s))
        /\ Poller.queries tr = max_iterations
        /\ Poller.sleeps tr = replicate (max_iterations - 1) delay)
  /\ (forall (query : Poller.JobHandle -> nat -> Poller.answer)
        (handle : Poller.JobHandle) (success failure : gset string)
        (delay : Z) (max_iterations : nat),
      (Poller.wait_for_completion query handle success failure delay
         max_iterations = ([], Poller.ConfigurationError)
       /\ (max_iterations = 0%nat \/ (delay <= 0)%Z))
      \/ (exists tr r,
            Poller.wait_for_completion query handle success failure delay
              max_iterations = (tr, Poller.Returned r)
            /\ (1 <= Poller.queries tr <= max_iterations)%nat))
  /\ (forall (svc : service) (arn : pyval) (w : world)
        (resps : list (gmap string pyval)),
      ns w !! "invocation_arn" = Some arn ->
      Lab1.answers svc arn (queries (trace w)) resps ->
      Forall Lab1.pending resps ->
      exists w',
        Lab1.poll svc (length resps) w = Running w'
        /\ queries (trace w') = (queries (trace w) + length resps)%nat
        /\ sleeps (trace w') = sleeps (trace w) ++ replicate (length resps) 5%Z).
Proof.
  split; [|split].
  - intros query handle success failure delay max_iterations sts s
      Hd <- Hans Hpend.
    apply Forall_app in Hpend as [Hpend Hs]. apply Forall_inv in Hs.
    rewrite wait_for_completion_valid by lia.
    replace (S (length sts) - 1)%nat with (length sts + 0)%nat by lia.
    rewrite (iterate_waits query handle success failure delay sts);
      [|intros j r Hj; apply Hans; by apply lookup_app_l_Some|done].
    rewrite (iterate_budget_spent query handle success failure delay s);
      [|apply Hans; by rewrite lookup_app_r, Nat.sub_diag|done].
    cbn [fst snd]. eexists. split; [reflexivity|]. split.
    + rewrite queries_waits.
      change (Poller.queries [Poller.Query handle]) with 1%nat. lia.
    + rewrite sleeps_waits.
      change (Poller.sleeps [Poller.Query handle]) with (@nil Z).
      by rewrite app_nil_r, Nat.add_0_r.
  - intros query handle success failure delay max_iterations.
    destruct (decide (max_iterations = 0%nat \/ (delay <= 0)%Z)) as [Hbad|Hok].
    + left. split; [|exact Hbad].
      unfold Poller.wait_for_completion. by rewrite decide_True.
    + right. rewrite wait_for_completion_valid by lia.
      eexists _, _. split; [reflexivity|].
      pose proof (iterate_bound query handle success failure delay
                    (max_iterations - 1) 0) as Hb.
      lia.
  - intros svc arn w resps Harn Hans Hpend.
    eexists. split; [by apply (poll_pending svc arn)|].
    rewrite after_rounds_trace. cbn [Lab1.initialised trace]. split.
    + by rewrite queries_app, queries_rounds.
    + by rewrite sleeps_app, sleeps_rounds.
Qed.

Lemma budget_ends_the_poller_not_lab1_witness :
  exists tr,
    Poller.wait_for_completion
      (Poller.replay ["InProgress"; "InProgress"; "InProgress"] "InProgress")
      "arn:job" Poller.completion_states Poller.error_states Poller.lab2_delay 3
    = (tr, Poller.Returned (Poller.Timeout (Poller.bare "InProgress")))
    /\ Poller.queries tr = 3%nat
    /\ Poller.sleeps tr = replicate (3 - 1) Poller.lab2_delay.
Proof.
  apply (proj1 budget_ends_the_poller_not_lab1
           (Poller.replay ["InProgress"; "InProgress"; "InProgress"] "InProgress")
           "arn:job" Poller.completion_states Poller.error_states
           Poller.lab2_delay 3%nat
           [Poller.bare "InProgress"; Poller.bare "InProgress"]
           (Poller.bare "InProgress")).
  - reflexivity.
  - reflexivity.
  - apply (poller_replay_answers ["InProgress"; "InProgress"; "InProgress"]).
  - cbn [app]. repeat (constructor; [split; by vm_compute|]). constructor.
Defined.

(** C6: a status whose code is neither in the success set nor in the
    failure set, known or never seen before, counts as still pending: it
    raises nothing, and while the budget is not spent the poller waits
    [delay] and queries again.  The loop of lab 1 does the same with any
    status outside its three terminal ones, waiting 5 s. *)
Theorem unrecognised_status_keeps_polling :
  (forall (query : Poller.JobHandle -> nat -> Poller.answer)
      (handle : Poller.JobHandle) (success failure : gset string)
      (delay : Z) (budget i : nat) (s : Poller.JobStatus),
      query handle i = Poller.Status s ->
      Poller.pending success failure s ->
      (exists rest,
          (Poller.iterate query handle success failure delay (S budget) i).1
          = Poller.Query handle :: Poller.Sleep delay
              :: Poller.Query handle :: rest)
      /\ (Poller.iterate query handle success failure delay (S budget) i).2
         = (Poller.iterate query handle success failure delay budget (S i)).2)
  /\ (forall (svc : service) (arn st : pyval) (w : world) (fuel : nat)
        (resp : gmap string pyval),
      ns w !! "invocation_arn" = Some arn ->
      ns w !! "status" = Some st ->
      py_in st Lab1.terminal_states = false ->
      svc arn (queries (trace w)) = Reply resp ->
      Lab1.pending resp ->
      Lab1.poll_once svc w = Ok tt (Lab1.after_round arn w resp)
      /\ exists rest,
           trace (world_of (Lab1.while_status svc (S (S fuel)) w))
           = trace w ++ Lab1.round arn resp ++ EQuery arn :: rest).
Proof.
  split.
  - intros query handle success failure delay budget i s Hq Hpend.
    rewrite (iterate_pending query handle success failure delay s budget i Hq Hpend).
    cbn [fst snd]. split; [|done].
    destruct (iterate_head query handle success failure delay budget (S i))
      as [rest ->].
    by exists rest.
  - intros svc arn st w fuel resp Harn Hst Hin Hsvc Hpend.
    pose proof (poll_once_reply svc w arn resp Harn Hsvc) as Hbody.
    split; [exact Hbody|].
    cbn [Lab1.while_status]. unfold read_var at 1. rewrite Hst, Hin, Hbody.
    destruct (while_status_first_query svc arn (Lab1.after_round arn w resp)
                (Lab1.status_of resp) fuel) as [rest Hrest].
    + cbn [Lab1.after_round ns]. by rewrite !lookup_insert_ne.
    + cbn [Lab1.after_round ns]. by rewrite lookup_insert_eq.
    + exact Hpend.
    + exists rest. cbn [Lab1.while_status] in Hrest. rewrite Hrest.
      cbn [Lab1.after_round trace]. by rewrite <- app_assoc.
Qed.

Lemma unrecognised_status_keeps_polling_witness :
  (exists rest,
      (Poller.iterate (Poller.replay [] "Throttled") "arn:job"
         Poller.completion_states Poller.error_states Poller.lab2_delay 3 0).1
      = Poller.Query "arn:job" :: Poller.Sleep Poller.lab2_delay
          :: Poller.Query "arn:job" :: rest)
  /\ (Poller.iterate (Poller.replay [] "Throttled") "arn:job"
        Poller.completion_states Poller.error_states Poller.lab2_delay 3 0).2
     = (Poller.iterate (Poller.replay [] "Throttled") "arn:job"
          Poller.completion_states Poller.error_states Poller.lab2_delay 2 1).2.
Proof.
  apply (proj1 unrecognised_status_keeps_polling
           (Poller.replay [] "Throttled") "arn:job"
           Poller.completion_states Poller.error_states Poller.lab2_delay
           2%nat 0%nat (Poller.bare "Throttled")).
  - reflexivity.
  - split; by vm_compute.
Defined.

(** * Lab 2: after the poller *)

Section Lab2After.
Variable s3 : storage.

(** Lines 299-307 when the status is not "Success": two prints at most,
    and no assignment besides that of line 289. *)
Lemma check_success_failed (d : gmap string pyval) (st : pyval) (w : world) :
  d !! "status" = Some st ->
  py_eq_str st "Success" = false ->
  Lab2.check_success (PDict d) w =
    Ok tt {| ns := <["status_response" := PDict d]> (ns w);
             trace := trace w
               ++ EPrint "Video processing failed with status:" st
               :: match d !! "error_message" with
                  | Some msg => [EPrint "Error message:" msg]
                  | None => []
                  end |}.
Proof.
  intros Hst Hne.
  unfold Lab2.check_success, bind, assign, read_var, py_index, emit,
    py_contains, ret.
  step_cell. rewrite Hst. step_cell. rewrite Hne. step_cell.
  rewrite Hst. step_cell.
  destruct (d !! "error_message") as [msg|] eqn:Hmsg; step_cell.
  - rewrite bool_decide_eq_true_2 by done. step_cell.
    rewrite Hmsg. step_cell. by rewrite <- !app_assoc.
  - rewrite bool_decide_eq_false_2 by (by intros [? ?]). by step_cell.
Qed.

(** Lines 299-303 when the status is "Success". *)
Lemma check_success_succeeded (d oc : gmap string pyval) (st : pyval)
    (w : world) :
  d !! "status" = Some st ->
  py_eq_str st "Success" = true ->
  default (PDict ∅) (d !! "outputConfiguration") = PDict oc ->
  Lab2.check_success (PDict d) w =
    Ok tt {| ns := <["output_config_uri" := default PNone (oc !! "s3Uri")]>
                     (<["status_response" := PDict d]> (ns w));
             trace := trace w
               ++ [EPrint "Video processing completed successfully!" PNone;
                   EPrint "Output configuration:"
                     (default PNone (oc !! "s3Uri"))] |}.
Proof.
  intros Hst Heq Hoc.
  unfold Lab2.check_success, bind, assign, read_var, py_index, ret, emit.
  step_cell. rewrite Hst. step_cell. rewrite Heq. step_cell.
  unfold py_get at 1, ret. rewrite Hoc. unfold py_get, ret. step_cell.
  by rewrite <- !app_assoc.
Qed.
End Lab2After.

(** C10: in lab 2 the name [output_config_uri] is assigned in the branch
    where the final status equals "Success" and nowhere else.  In a run
    whose final status is anything else, the first cell ends without
    assigning it, and the retrieval of the result at line 319 reads a name
    that was never assigned and fails with a [NameError], before any read
    from S3 is attempted; on "Success" the name holds the URI of the
    response and the read is made on it. *)
Theorem lab2_output_uri_only_on_success
    (s3 : storage) (d : gmap string pyval) (st : pyval) (w : world) :
  ns w !! "output_config_uri" = None ->
  d !! "status" = Some st ->
  (py_eq_str st "Success" = false ->
   exists w',
     Lab2.check_success (PDict d) w = Ok tt w'
     /\ ns w' !! "output_config_uri" = None
     /\ Lab2.cells s3 (PDict d) w = Raise (NameError "output_config_uri") w'
     /\ forall uri, EReadJson uri ∈ trace w' -> EReadJson uri ∈ trace w)
  /\ (py_eq_str st "Success" = true ->
      forall oc,
        default (PDict ∅) (d !! "outputConfiguration") = PDict oc ->
        exists w',
          Lab2.check_success (PDict d) w = Ok tt w'
          /\ ns w' !! "output_config_uri" = Some (default PNone (oc !! "s3Uri"))
          /\ exists rest,
               trace (result_world (Lab2.cells s3 (PDict d) w))
               = trace w' ++ EReadJson (default PNone (oc !! "s3Uri")) :: rest).
Proof.
  intros Hfresh Hst. split.
  - intros Hne.
    pose proof (check_success_failed d st w Hst Hne) as Hcell.
    eexists. split; [exact Hcell|]. split; [|split].
    + step_cell. exact Hfresh.
    + unfold Lab2.cells, bind. rewrite Hcell.
      unfold Lab2.load_job_metadata, bind, read_var. step_cell.
      by rewrite Hfresh.
    + intros uri. cbn [trace]. rewrite elem_of_app, elem_of_cons.
      intros [Hin|[Hin|Hin]]; [done|done|].
      destruct (d !! "error_message");
        [apply list_elem_of_singleton in Hin|apply elem_of_nil in Hin]; done.
  - intros Heq oc Hoc.
    pose proof (check_success_succeeded d oc st w Hst Heq Hoc) as Hcell.
    eexists. split; [exact Hcell|]. split.
    + by step_cell.
    + unfold Lab2.cells, bind. rewrite Hcell.
      unfold Lab2.load_job_metadata, bind, read_var, read_json, assign.
      step_cell.
      destruct (s3 (default PNone (oc !! "s3Uri"))) as [doc|];
        cbn [result_world trace]; by exists [].
Qed.

Lemma lab2_output_uri_only_on_success_witness :
  exists w',
    Lab2.check_success (PDict (Lab1.status_only "ServiceError"))
      (Lab1.submitted "arn:job") = Ok tt w'
    /\ ns w' !! "output_config_uri" = None
    /\ Lab2.cells (fun _ => None) (PDict (Lab1.status_only "ServiceError"))
         (Lab1.submitted "arn:job")
       = Raise (NameError "output_config_uri") w'
    /\ forall uri, EReadJson uri ∈ trace w'
                   -> EReadJson uri ∈ trace (Lab1.submitted "arn:job").
Proof.
  refine (proj1 (lab2_output_uri_only_on_success (fun _ => None)
                   (Lab1.status_only "ServiceError") (PStr "ServiceError")
                   (Lab1.submitted "arn:job") _ _) _); reflexivity.
Defined.

(** * The other cells *)

(** ** Strings *)

Lemma split_cons (sep : ascii) (s : string) :
  exists h t, Str.split sep s = h :: t.
Proof.
  induction s as [|c s [h [t IH]]]; cbn [Str.split].
  - by eexists _, _.
  - destruct (decide (c = sep)); [by eexists _, _|].
    rewrite IH. by eexists _, _.
Qed.

Lemma split_step (sep c : ascii) (s : string) (h : string) (t : list string) :
  Str.split sep s = h :: t ->
  Str.split sep (String c s)
  = if decide (c = sep) then EmptyString :: h :: t else String c h :: t.
Proof. intros H. cbn [Str.split]. by rewrite H. Qed.

Lemma join_cons_cons (sep x y : string) (l : list string) :
  Str.join sep (x :: y :: l)
  = String.append x (String.append sep (Str.join sep (y :: l))).
Proof. reflexivity. Qed.

Lemma join_split (sep : ascii) (s : string) :
  Str.join (String sep EmptyString) (Str.split sep s) = s.
Proof.
  induction s as [|c s IH]; [done|].
  destruct (split_cons sep s) as [h [t Hs]].
  rewrite (split_step sep c s h t Hs). rewrite Hs in IH.
  destruct (decide (c = sep)) as [->|Hc].
  - rewrite join_cons_cons, IH. reflexivity.
  - destruct t as [|h' t].
    + cbn in IH. subst h. reflexivity.
    + rewrite join_cons_cons. rewrite join_cons_cons in IH.
      rewrite <- IH. reflexivity.
Qed.

(** No part of a split holds the separator. *)
Lemma split_parts_clean (sep : ascii) (s : string) :
  Forall (fun part => Str.has sep part = false) (Str.split sep s).
Proof.
  induction s as [|c s IH]; [by repeat constructor|].
  destruct (split_cons sep s) as [h [t Hs]].
  rewrite (split_step sep c s h t Hs). rewrite Hs in IH.
  apply Forall_cons in IH as [Hh Ht].
  destruct (decide (c = sep)) as [->|Hc].
  - by repeat constructor.
  - constructor; [|done]. cbn [Str.has].
    by rewrite Hh, bool_decide_eq_false_2.
Qed.

(** A string without the separator is its own single part. *)
Lemma split_clean (sep : ascii) (s : string) :
  Str.has sep s = false -> Str.split sep s = [s].
Proof.
  induction s as [|c s IH]; [done|]. cbn [Str.has Str.split].
  intros [Hc Hs]%orb_false_elim. apply bool_decide_eq_false in Hc.
  rewrite decide_False by done. by rewrite (IH Hs).
Qed.

(** The last part of a split is what follows the last separator. *)
Lemma split_last (sep : ascii) (s : string) :
  exists dir base,
    last (Str.split sep s) = Some base
    /\ s = String.append dir base
    /\ Str.has sep base = false
    /\ (dir = EmptyString
        \/ exists d, dir = String.append d (String sep EmptyString)).
Proof.
  induction s as [|c s IH].
  - exists EmptyString, EmptyString. auto.
  - destruct IH as [dir [base [Hlast [Hs [Hclean Hdir]]]]].
    destruct (split_cons sep s) as [h [t Hsplit]].
    rewrite (split_step sep c s h t Hsplit). rewrite Hsplit in Hlast.
    destruct (decide (c = sep)) as [->|Hc].
    + exists (String sep dir), base. split; [|split; [|split]].
      * by rewrite last_cons, Hlast.
      * by rewrite Hs at 1.
      * done.
      * right. destruct Hdir as [->|[d ->]]; [by exists EmptyString|].
        by exists (String sep d).
    + destruct t as [|h' t].
      * assert (s = h) as Hsh.
        { pose proof (join_split sep s) as Hj. by rewrite Hsplit in Hj. }
        exists EmptyString, (String c h). split; [done|].
        split; [by rewrite Hsh|]. split; [|by left].
        cbn [Str.has]. rewrite bool_decide_eq_false_2 by done.
        pose proof (split_parts_clean sep s) as Hp. rewrite Hsplit in Hp.
        by apply Forall_inv in Hp.
      * exists (String c dir), base. split; [|split; [|split]].
        -- exact Hlast.
        -- by rewrite Hs at 1.
        -- done.
        -- right. destruct Hdir as [->|[d ->]]; [|by exists (String c d)].
           change (s = base) in Hs. rewrite Hs in Hsplit.
           by rewrite (split_clean sep base Hclean) in Hsplit.
Qed.

Lemma append_nil_r (s : string) : String.append s EmptyString = s.
Proof.
  induction s as [|c s IH]; [done|].
  change (String c (String.append s EmptyString) = String c s).
  by rewrite IH.
Qed.

Lemma prefix_append (old r : string) :
  String.prefix old (String.append old r) = true.
Proof.
  induction old as [|c old IH]; [by destruct r|].
  change (String.prefix (String c old) (String c (String.append old r)) = true).
  cbn [String.prefix]. by destruct (Ascii.ascii_dec c c).
Qed.

Lemma replace_from_skip (old new t r : string) :
  Str.replace_from old new (String.length t) (String.append t r)
  = Str.replace_from old new 0 r.
Proof.
  induction t as [|c t IH]; [done|].
  change (Str.replace_from old new (S (String.length t))
            (String c (String.append t r)) = Str.replace_from old new 0 r).
  cbn [Str.replace_from]. exact IH.
Qed.

(** Replacing an occurrence that nothing before it overlaps. *)
Lemma replace_at_end (old new p : string) :
  old <> EmptyString ->
  Str.only_at_end old p = true ->
  Str.replace old new (String.append p old) = String.append p new.
Proof.
  intros Hold. unfold Str.replace. induction p as [|c p IH].
  - intros _. destruct old as [|c old]; [done|].
    change (Str.replace_from (String c old) new 0 (String c old) = new).
    cbn [Str.replace_from].
    assert (String.prefix (String c old) (String c old) = true) as Hp.
    { rewrite <- (append_nil_r (String c old)) at 2. apply prefix_append. }
    rewrite Hp. cbn [String.length].
    replace (S (String.length old) - 1)%nat with (String.length old) by lia.
    pose proof (replace_from_skip (String c old) new old EmptyString) as Hskip.
    rewrite append_nil_r in Hskip. rewrite Hskip.
    apply append_nil_r.
  - cbn [Str.only_at_end]. intros [Hhere Hrest]%andb_prop.
    apply negb_true_iff in Hhere.
    change (Str.replace_from old new 0 (String c (String.append p old))
            = String c (String.append p new)).
    cbn [Str.replace_from].
    change (String c (String.append p old))
      with (String.append (String c p) old).
    rewrite Hhere. by rewrite (IH Hrest).
Qed.

Lemma lstrip_head (c : ascii) (s rest : string) :
  Str.lstrip c s <> String c rest.
Proof.
  induction s as [|a s IH]; [done|]. cbn [Str.lstrip].
  destruct (decide (a = c)) as [->|Hne]; [exact IH|]. congruence.
Qed.

(** X1: splitting a string at a character, as [split("/")] does, and
    joining the parts with that character, as [join] does, gives the string
    back; the split is never empty and none of its parts holds the
    character. *)
Theorem split_then_join_is_identity (sep : ascii) (s : string) :
  Str.join (String sep EmptyString) (Str.split sep s) = s
  /\ Str.split sep s <> []
  /\ Forall (fun part => Str.has sep part = false) (Str.split sep s).
Proof.
  split; [apply join_split|]. split; [|apply split_parts_clean].
  by destruct (split_cons sep s) as [h [t ->]].
Qed.

(** ** Running the other cells *)

Import Json Nb.

Ltac nb_unfold :=
  unfold Nb.bind, Nb.read_var, Nb.assign, Nb.emit, Nb.lift, Nb.ret, Nb.raise,
    Nb.call_out, Nb.unbind.

Ltac nb_step :=
  repeat first
    [ progress cbn [Nb.vars Nb.log]
    | rewrite lookup_insert_eq
    | rewrite lookup_insert_ne by done
    | rewrite lookup_delete_ne by done ].

(** Taking apart a run that ended normally. *)
Lemma bind_val {A B} (m : N A) (k : A -> N B) (s s' : state) (b : B) :
  Nb.bind m k s = Val b s' <->
  exists a s1, m s = Val a s1 /\ k a s1 = Val b s'.
Proof.
  unfold Nb.bind. split.
  - destruct (m s) as [a s1|e s1]; [|done]. intros H. by exists a, s1.
  - intros [a [s1 [-> H]]]. exact H.
Qed.

Lemma lift_val {A} (r : exn + A) (s s' : state) (a : A) :
  Nb.lift r s = Val a s' <-> r = inr a /\ s' = s.
Proof.
  unfold Nb.lift, Nb.ret, Nb.raise. destruct r as [e|x]; split;
    try done; try (intros [? ?]; done).
  - intros [= -> ->]. done.
  - intros [[= ->] ->]. done.
Qed.

Lemma read_var_val (x : string) (s s' : state) (v : jval) :
  Nb.read_var x s = Val v s' <-> vars s !! x = Some v /\ s' = s.
Proof.
  unfold Nb.read_var. destruct (vars s !! x) as [u|]; split; try done.
  - intros [= -> ->]. done.
  - intros [[= ->] ->]. done.
  - intros [? ?]. done.
Qed.

Lemma subscript_inr (v : jval) (k : string) (x : jval) :
  subscript v k = inr x <-> exists d, v = JDict d /\ lookup_key k d = Some x.
Proof.
  split.
  - destruct v as [| | | | |l|d]; try done. cbn.
    destruct (lookup_key k d) as [y|] eqn:Hk; [|done].
    intros [= ->]. by exists d.
  - intros [d [-> Hk]]. cbn. by rewrite Hk.
Qed.

(** ** Lab 1: the key of the upload *)

(** X2: lines 160-161 of lab 1 never fail on a file name that is a
    string before the upload itself, the [[-1]] being taken of a list that
    is never empty.  The key they assign is the prefix, a slash, and what
    follows the last slash of the file name: a part without a slash, the
    whole name when the name has none; and the file is uploaded to the
    bucket under that key. *)
Theorem lab1_s3_key_is_last_component
    (out : outside) (repr : jval -> string) (s : state) (p f : string)
    (bucket : jval) :
  vars s !! "data_prefix" = Some (JStr p) ->
  vars s !! "sample_video_movie" = Some (JStr f) ->
  vars s !! "data_bucket" = Some bucket ->
  exists dir base,
    f = String.append dir base
    /\ Str.has "/" base = false
    /\ (dir = EmptyString \/ exists d, dir = String.append d "/")
    /\ Lab1Cells.make_s3_key repr s
       = Val tt {| vars := <["s3_key" :=
                               JStr (String.append p (String.append "/" base))]>
                             (vars s);
                   log := log s |}
    /\ log (state_of (Lab1Cells.upload_cell out repr s))
       = log s ++ [Called (UploadFile (JStr f) bucket
                             (JStr (String.append p (String.append "/" base))))].
Proof.
  intros Hp Hf Hbucket.
  destruct (split_last "/" f) as [dir [base [Hlast [Hsplit [Hclean Hdir]]]]].
  exists dir, base. split; [done|]. split; [done|]. split; [done|].
  assert (Lab1Cells.make_s3_key repr s
          = Val tt {| vars := <["s3_key" :=
                                  JStr (String.append p (String.append "/" base))]>
                                (vars s);
                      log := log s |}) as Hkey.
  { unfold Lab1Cells.make_s3_key. nb_unfold. rewrite Hp, Hf.
    cbn [method_split last_of].
    change (map JStr (Str.split "/" f)) with (JStr <$> Str.split "/" f).
    by rewrite fmap_last, Hlast. }
  split; [exact Hkey|].
  unfold Lab1Cells.upload_cell. unfold Nb.bind at 1. rewrite Hkey.
  unfold Lab1Cells.upload_video. nb_unfold.
  repeat first [ rewrite Hf | rewrite Hbucket | progress nb_step ].
  by destruct (out _).
Qed.

Lemma lab1_s3_key_is_last_component_witness :
  exists dir base,
    "clips/raw/NetflixMeridian.mp4" = String.append dir base
    /\ Str.has "/" base = false
    /\ (dir = EmptyString \/ exists d, dir = String.append d "/")
    /\ Lab1Cells.make_s3_key (fun _ => "?") Lab1Cells.before_upload
       = Val tt {| vars := <["s3_key" :=
                               JStr (String.append "bda-workshop/video"
                                       (String.append "/" base))]>
                             (vars Lab1Cells.before_upload);
                   log := log Lab1Cells.before_upload |}
    /\ log (state_of (Lab1Cells.upload_cell (fun _ => None) (fun _ => "?")
                        Lab1Cells.before_upload))
       = log Lab1Cells.before_upload
         ++ [Called (UploadFile (JStr "clips/raw/NetflixMeridian.mp4")
                       (JStr "bda-workshop-bucket")
                       (JStr (String.append "bda-workshop/video"
                                (String.append "/" base))))].
Proof.
  apply (lab1_s3_key_is_last_component (fun _ => None) (fun _ => "?")
           Lab1Cells.before_upload
           "bda-workshop/video" "clips/raw/NetflixMeridian.mp4"
           (JStr "bda-workshop-bucket")); reflexivity.
Defined.

(** ** The path of the result in the job metadata *)

(** X3: the path is found exactly when [config_data] is a dictionary whose
    [output_metadata] is a list that starts with a dictionary whose
    [segment_metadata] is a list that starts with a dictionary that has the
    key; the path is the value under that key, whatever follows in the two
    lists, and looking for it changes nothing. *)
Theorem first_output_path_found
    (key : string) (s s' : state) (path : jval) :
  Lab1Cells.first_output_path key s = Val path s' <->
  s' = s
  /\ exists d meta metas segment segments,
       vars s !! "config_data" = Some (JDict d)
       /\ lookup_key "output_metadata" d = Some (JList (JDict meta :: metas))
       /\ lookup_key "segment_metadata" meta
          = Some (JList (JDict segment :: segments))
       /\ lookup_key key segment = Some path.
Proof.
  unfold Lab1Cells.first_output_path. split.
  - intros H.
    apply bind_val in H as [cfg [s1 [[Hcfg ->]%read_var_val H]]].
    apply bind_val in H as [ms [s1 [[Hms ->]%lift_val H]]].
    apply bind_val in H as [m [s1 [[Hm ->]%lift_val H]]].
    apply bind_val in H as [sgs [s1 [[Hsgs ->]%lift_val H]]].
    apply bind_val in H as [sg [s1 [[Hsg ->]%lift_val H]]].
    apply lift_val in H as [Hpath ->]. split; [done|].
    apply subscript_inr in Hms as [d [-> Hd]].
    apply subscript_inr in Hsgs as [meta [-> Hmeta]].
    apply subscript_inr in Hpath as [segment [-> Hsegment]].
    destruct ms as [| | | |str|metas|dd]; try done.
    { cbn in Hm. by destruct (String.get 0 str). }
    destruct metas as [|m0 metas]; [done|]. cbn in Hm. injection Hm as ->.
    destruct sgs as [| | | |str|segments|dd]; try done.
    { cbn in Hsg. by destruct (String.get 0 str). }
    destruct segments as [|s0 segments]; [done|]. cbn in Hsg. injection Hsg as ->.
    by exists d, meta, metas, segment, segments.
  - intros [-> [d [meta [metas [segment [segments [Hcfg [Hd [Hmeta Hseg]]]]]]]]].
    nb_unfold. rewrite Hcfg. cbn. rewrite Hd. cbn. rewrite Hmeta. cbn.
    by rewrite Hseg.
Qed.

Lemma first_output_path_state (key : string) (s : state) :
  state_of (Lab1Cells.first_output_path key s) = s.
Proof.
  unfold Lab1Cells.first_output_path. nb_unfold.
  repeat (case_match; try done); by simplify_eq.
Qed.

(** X4: lines 249-252 of lab 1 read the result from the path found in the
    job metadata, bind [result_uri] and [result_data] and print the
    document; when the path is not found the cell ends with the error of
    the look-up, without a read from S3 and without an assignment; when
    the read fails only [result_uri] has been assigned. *)
Theorem lab1_read_result_follows_path (out : outside) (s : state) :
  (forall path doc,
      Lab1Cells.first_output_path "standard_output_path" s = Val path s ->
      out (ReadJsonS3 path) = Some doc ->
      Lab1Cells.read_result out s
      = Val tt {| vars := <["result_data" := doc]>
                            (<["result_uri" := path]> (vars s));
                  log := log s ++ [Called (ReadJsonS3 path); Printed "{}" [doc]] |})
  /\ (forall path,
        Lab1Cells.first_output_path "standard_output_path" s = Val path s ->
        out (ReadJsonS3 path) = None ->
        Lab1Cells.read_result out s
        = Exn (ExternalError "read_json_on_s3")
            {| vars := <["result_uri" := path]> (vars s);
               log := log s ++ [Called (ReadJsonS3 path)] |})
  /\ (forall e s1,
        Lab1Cells.first_output_path "standard_output_path" s = Exn e s1 ->
        Lab1Cells.read_result out s = Exn e s).
Proof.
  split; [|split].
  - intros path doc Hpath Hout.
    unfold Lab1Cells.read_result. unfold Nb.bind at 1. rewrite Hpath.
    nb_unfold. nb_step. rewrite Hout. nb_step.
    by rewrite <- app_assoc.
  - intros path Hpath Hout.
    unfold Lab1Cells.read_result. unfold Nb.bind at 1. rewrite Hpath.
    nb_unfold. nb_step. by rewrite Hout.
  - intros e s1 Hpath.
    pose proof (first_output_path_state "standard_output_path" s) as Hs.
    rewrite Hpath in Hs. cbn in Hs. subst s1.
    unfold Lab1Cells.read_result. unfold Nb.bind at 1. by rewrite Hpath.
Qed.

Lemma lab1_read_result_follows_path_witness :
  Lab1Cells.read_result (fun _ => None)
    {| vars := {["config_data" := JDict [("output_metadata", JList [])]]};
       log := [] |}
  = Exn IndexError
      {| vars := {["config_data" := JDict [("output_metadata", JList [])]]};
         log := [] |}.
Proof.
  exact (proj2 (proj2 (lab1_read_result_follows_path (fun _ => None)
           {| vars := {["config_data" := JDict [("output_metadata", JList [])]]};
              log := [] |}))
           IndexError _ eq_refl).
Defined.

(** ** Lab 1: the chapters *)

Section Chapters.
Local Open Scope nb_scope.

Lemma strings_map (cats : list string) : strings (map JStr cats) = Some cats.
Proof. induction cats as [|c cats IH]; [done|]. cbn. by rewrite IH. Qed.

Lemma for_each_app (x : string) (a b : list jval) (body : N unit) (s : state) :
  for_each x (a ++ b) body s
  = (for_each x a body ;;; for_each x b body) s.
Proof.
  revert s. induction a as [|v a IH]; intros s; [done|].
  cbn [app for_each]. unfold Nb.bind, Nb.assign.
  destruct (body _) as [[] s1|e s1]; [|done].
  rewrite IH. reflexivity.
Qed.

(** Lines 293-294: the categories are appended in the order of the list. *)
Lemma collect_run (items : list jval) (cats : list string) :
  Forall2 Lab1Cells.has_category items cats ->
  forall (s : state) (acc : list jval),
    vars s !! "iabs" = Some (JList acc) ->
    exists s',
      for_each "iab" items Lab1Cells.collect_category s = Val tt s'
      /\ vars s' !! "iabs" = Some (JList (acc ++ map JStr cats))
      /\ log s' = log s
      /\ forall x, x <> "iab" -> x <> "iabs" -> vars s' !! x = vars s !! x.
Proof.
  induction 1 as [|item c items cats [d [-> Hc]] _ IH]; intros s acc Hacc.
  - exists s. cbn. by rewrite app_nil_r.
  - cbn [for_each]. unfold Lab1Cells.collect_category, append_to.
    nb_unfold. nb_step. cbn [subscript]. rewrite Hc. nb_step.
    rewrite Hacc. nb_step.
    destruct (IH {| vars := <["iabs" := JList (acc ++ [JStr c])]>
                              (<["iab" := JDict d]> (vars s));
                    log := log s |} (acc ++ [JStr c]))
      as [s' [Hrun [Hiabs [Hlog Hframe]]]].
    { nb_step. done. }
    exists s'. split; [exact Hrun|]. split; [|split].
    + rewrite Hiabs. by rewrite <- app_assoc.
    + exact Hlog.
    + intros x H1 H2. rewrite (Hframe x H1 H2). nb_step. done.
Qed.
End Chapters.

Section ChapterBlocks.
Local Open Scope nb_scope.

(** Lines 291-296: up to the header line, and what is left of the block. *)
Lemma chapter_header_run (chapter start stop : jval) (cats : list string)
    (s : state) :
  vars s !! "chapter" = Some chapter ->
  Lab1Cells.has_header chapter start stop cats ->
  exists s1,
    log s1 = log s ++ [Lab1Cells.header start stop cats]
    /\ Lab1Cells.chapter_block s
       = (summary <~ lift (subscript chapter "summary") ;;
          emit (Printed "{}" [summary]) ;;;
          emit (Printed "" [])) s1.
Proof.
  intros Hch [d [-> [Hstart [Hstop Hcats]]]].
  unfold Lab1Cells.chapter_block.
  unfold Nb.bind at 1. unfold Nb.assign at 1.
  unfold Nb.bind at 1. unfold Nb.read_var at 1. nb_step. rewrite Hch.
  unfold Nb.bind at 1. unfold Nb.lift at 1. cbn [get]. unfold Nb.ret at 1.
  unfold Nb.bind at 1.
  assert (exists s0,
            (if truthy (default JNull (lookup_key "iab_categories" d))
             then
               chapter <~ Nb.read_var "chapter" ;;
               cats0 <~ lift (subscript chapter "iab_categories") ;;
               items <~ lift (iterate cats0) ;;
               for_each "iab" items Lab1Cells.collect_category
             else Nb.ret tt)
              {| vars := <["iabs" := JList []]> (vars s); log := log s |}
            = Val tt s0
            /\ vars s0 !! "iabs" = Some (JList (map JStr cats))
            /\ vars s0 !! "chapter" = Some (JDict d)
            /\ log s0 = log s) as [s0 [Hrun [Hiabs [Hch0 Hlog0]]]].
  { destruct Hcats as [[Hfalse ->]|[items [Hitems [Hne Hall]]]].
    - rewrite Hfalse. eexists. split; [reflexivity|]. by nb_step.
    - rewrite Hitems. cbn [default from_option id truthy].
      rewrite bool_decide_eq_false_2 by done. cbn [negb].
      nb_unfold. nb_step. rewrite Hch.
      cbn [subscript iterate]. rewrite Hitems.
      destruct (collect_run items cats Hall
                  {| vars := <["iabs" := JList []]> (vars s); log := log s |} [])
        as [s0 [Hrun [Hiabs [Hlog Hframe]]]].
      { nb_step. done. }
      exists s0. split; [exact Hrun|]. split; [exact Hiabs|]. split; [|exact Hlog].
      rewrite Hframe by done. by nb_step. }
  rewrite Hrun. nb_unfold.
  repeat first
    [ rewrite Hch0 | rewrite Hstart | rewrite Hstop | rewrite Hiabs
    | rewrite strings_map
    | progress cbn [subscript join iterate Nb.vars Nb.log] ].
  eexists. split; [|reflexivity]. nb_step. by rewrite Hlog0.
Qed.

Lemma chapter_block_run (chapter : jval) (v : Lab1Cells.chapter_view)
    (s : state) :
  vars s !! "chapter" = Some chapter ->
  Lab1Cells.shows chapter v ->
  exists s',
    Lab1Cells.chapter_block s = Val tt s'
    /\ log s' = log s ++ Lab1Cells.block v.
Proof.
  intros Hch [Hhead Hsum].
  destruct (chapter_header_run chapter _ _ _ s Hch Hhead) as [s1 [Hlog ->]].
  nb_unfold. rewrite Hsum. eexists. split; [reflexivity|]. nb_step.
  rewrite Hlog. unfold Lab1Cells.block. by rewrite <- !app_assoc.
Qed.

Lemma chapters_run (chapters : list jval) (views : list Lab1Cells.chapter_view) :
  Forall2 Lab1Cells.shows chapters views ->
  forall s : state,
    exists s',
      for_each "chapter" chapters Lab1Cells.chapter_block s = Val tt s'
      /\ log s' = log s ++ concat (map Lab1Cells.block views).
Proof.
  induction 1 as [|chapter v chapters views Hshows _ IH]; intros s.
  - exists s. cbn. by rewrite app_nil_r.
  - cbn [for_each]. unfold Nb.bind, Nb.assign.
    destruct (chapter_block_run chapter v
                {| vars := <["chapter" := chapter]> (vars s); log := log s |})
      as [s1 [Hrun Hlog]]; [by nb_step|exact Hshows|].
    rewrite Hrun. destruct (IH s1) as [s' [Hrest Hlog']].
    exists s'. split; [exact Hrest|].
    rewrite Hlog', Hlog. cbn [map concat Nb.log]. by rewrite <- app_assoc.
Qed.
End ChapterBlocks.

(** X5: lines 290-298 of lab 1 print, for the chapters in their order, one
    block of three lines each: the two time codes with the IAB categories
    of the chapter joined by ", " in the order of their list, the summary,
    and an empty line.  A chapter without [iab_categories], or with a value
    there that counts as false (an empty list, [None]), gets an empty list
    of categories. *)
Theorem lab1_chapters_printed_in_order
    (s : state) (doc : jval) (chapters : list jval)
    (views : list Lab1Cells.chapter_view) :
  vars s !! "result_data" = Some doc ->
  subscript doc "chapters" = inr (JList chapters) ->
  Forall2 Lab1Cells.shows chapters views ->
  exists s',
    Lab1Cells.print_chapters s = Val tt s'
    /\ log s' = log s ++ concat (map Lab1Cells.block views).
Proof.
  intros Hdoc Hchapters Hshow.
  unfold Lab1Cells.print_chapters. nb_unfold. rewrite Hdoc, Hchapters.
  cbn [iterate]. by apply chapters_run.
Qed.

(** X6: when a chapter has its time codes and categories but no summary,
    the loop stops in that chapter with the error of the look-up, after
    the blocks of the chapters before it and the header line of the
    chapter itself; nothing of the chapters after it is printed. *)
Theorem lab1_chapters_stop_at_missing_summary
    (s : state) (doc : jval) (good rest : list jval) (bad : jval)
    (views : list Lab1Cells.chapter_view)
    (start stop : jval) (cats : list string) (e : exn) :
  vars s !! "result_data" = Some doc ->
  subscript doc "chapters" = inr (JList (good ++ bad :: rest)) ->
  Forall2 Lab1Cells.shows good views ->
  Lab1Cells.has_header bad start stop cats ->
  subscript bad "summary" = inl e ->
  exists s',
    Lab1Cells.print_chapters s = Exn e s'
    /\ log s' = log s ++ concat (map Lab1Cells.block views)
                ++ [Lab1Cells.header start stop cats].
Proof.
  intros Hdoc Hchapters Hshow Hhead Hsum.
  unfold Lab1Cells.print_chapters. nb_unfold. rewrite Hdoc, Hchapters.
  cbn [iterate]. rewrite for_each_app.
  destruct (chapters_run good views Hshow s) as [s1 [Hrun Hlog1]].
  unfold Nb.bind at 1. rewrite Hrun.
  cbn [for_each]. unfold Nb.bind at 1. unfold Nb.assign at 1.
  unfold Nb.bind at 1.
  destruct (chapter_header_run bad start stop cats
              {| vars := <["chapter" := bad]> (vars s1); log := log s1 |})
    as [s2 [Hlog2 ->]]; [by nb_step|exact Hhead|].
  nb_unfold. rewrite Hsum. eexists. split; [reflexivity|].
  rewrite Hlog2. nb_step. by rewrite Hlog1, <- app_assoc.
Qed.

Lemma shows_with_categories :
  Lab1Cells.shows Lab1Cells.chapter_with_categories
    Lab1Cells.view_with_categories.
Proof.
  split; [|reflexivity]. eexists. split; [reflexivity|].
  split; [reflexivity|]. split; [reflexivity|]. right.
  eexists. split; [reflexivity|]. split; [done|].
  repeat constructor; eexists; (split; [reflexivity|reflexivity]).
Qed.

Lemma shows_without_categories :
  Lab1Cells.shows Lab1Cells.chapter_without_categories
    Lab1Cells.view_without_categories.
Proof.
  split; [|reflexivity]. eexists. split; [reflexivity|].
  split; [reflexivity|]. split; [reflexivity|]. by left.
Qed.

Lemma lab1_chapters_printed_in_order_witness :
  exists s',
    Lab1Cells.print_chapters
      (Lab1Cells.holding "result_data"
         (JDict [("chapters",
                  JList [Lab1Cells.chapter_with_categories;
                         Lab1Cells.chapter_without_categories])]))
    = Val tt s'
    /\ log s'
       = [] ++ concat (map Lab1Cells.block
                         [Lab1Cells.view_with_categories;
                          Lab1Cells.view_without_categories]).
Proof.
  apply (lab1_chapters_printed_in_order
           (Lab1Cells.holding "result_data"
              (JDict [("chapters",
                       JList [Lab1Cells.chapter_with_categories;
                              Lab1Cells.chapter_without_categories])]))
           (JDict [("chapters",
                    JList [Lab1Cells.chapter_with_categories;
                           Lab1Cells.chapter_without_categories])])
           [Lab1Cells.chapter_with_categories;
            Lab1Cells.chapter_without_categories]
           [Lab1Cells.view_with_categories;
            Lab1Cells.view_without_categories]).
  - reflexivity.
  - reflexivity.
  - repeat constructor.
    + apply shows_with_categories.
    + apply shows_without_categories.
Defined.

Lemma lab1_chapters_stop_at_missing_summary_witness :
  exists s',
    Lab1Cells.print_chapters
      (Lab1Cells.holding "result_data"
         (JDict [("chapters",
                  JList ([Lab1Cells.chapter_with_categories]
                           ++ Lab1Cells.chapter_without_summary
                           :: [Lab1Cells.chapter_without_categories]))]))
    = Exn (KeyError (JStr "summary")) s'
    /\ log s'
       = [] ++ concat (map Lab1Cells.block [Lab1Cells.view_with_categories])
            ++ [Lab1Cells.header (JStr "00:00:31:02") (JStr "00:00:40:00") []].
Proof.
  apply (lab1_chapters_stop_at_missing_summary
           (Lab1Cells.holding "result_data"
              (JDict [("chapters",
                       JList ([Lab1Cells.chapter_with_categories]
                                ++ Lab1Cells.chapter_without_summary
                                :: [Lab1Cells.chapter_without_categories]))]))
           (JDict [("chapters",
                    JList ([Lab1Cells.chapter_with_categories]
                             ++ Lab1Cells.chapter_without_summary
                             :: [Lab1Cells.chapter_without_categories]))])
           [Lab1Cells.chapter_with_categories]
           [Lab1Cells.chapter_without_categories]
           Lab1Cells.chapter_without_summary
           [Lab1Cells.view_with_categories]).
  - reflexivity.
  - reflexivity.
  - repeat constructor. apply shows_with_categories.
  - eexists. split; [reflexivity|]. split; [reflexivity|].
    split; [reflexivity|]. by left.
  - reflexivity.
Defined.

(** ** Lab 2: the blueprint and the project *)





(** ** Lab 2: the download *)



(** ** Deleting the results *)

(** X10: after a run of lab 2 whose final status is not "Success", the
    cell that deletes the results (line 451) fails with a [NameError] on
    [output_config_uri] before anything is deleted. *)
Theorem lab2_results_not_deleted_after_failure
    (out : outside) (urlparse_path : string -> option string)
    (d : gmap string Py.pyval) (st : Py.pyval) (w w' : Py.world) :
  Py.ns w !! "output_config_uri" = None ->
  d !! "status" = Some st ->
  Py.py_eq_str st "Success" = false ->
  Lab2.check_success (Py.PDict d) w = Py.Ok tt w' ->
  Lab2Cells.delete_results out urlparse_path (after_polling w')
  = Exn (NameError "output_config_uri") (after_polling w').
Proof.
  intros Hfresh Hst Hne Hrun.
  rewrite (check_success_failed d st w Hst Hne) in Hrun.
  injection Hrun as <-.
  unfold Lab2Cells.delete_results, after_polling. nb_unfold. nb_step.
  cbn [Py.ns]. rewrite lookup_fmap, lookup_insert_ne by done.
  by rewrite Hfresh.
Qed.

Lemma lab2_results_not_deleted_after_failure_witness :
  Lab2Cells.delete_results (fun _ => Some JNull) (fun u => Some u)
    (after_polling
       (Py.result_world
          (Lab2.check_success (Py.PDict (Lab1.status_only "ClientError"))
             (Lab1.submitted "arn:job"))))
  = Exn (NameError "output_config_uri")
      (after_polling
         (Py.result_world
            (Lab2.check_success (Py.PDict (Lab1.status_only "ClientError"))
               (Lab1.submitted "arn:job")))).
Proof.
  exact (lab2_results_not_deleted_after_failure
           (fun _ => Some JNull) (fun u => Some u)
           (Lab1.status_only "ClientError") (Py.PStr "ClientError")
           (Lab1.submitted "arn:job")
           (Py.result_world
              (Lab2.check_success (Py.PDict (Lab1.status_only "ClientError"))
                 (Lab1.submitted "arn:job")))
           eq_refl eq_refl eq_refl eq_refl).
Defined.

(** X11: after a run of lab 1 whose last status response has no
    [outputConfiguration] (a failed job), [output_config] is [None], and
    the cell that deletes the results (line 386) fails with an
    [AttributeError] on [.replace] before anything is deleted, whether the
    read of line 238 went through or not. *)
Theorem lab1_results_not_deleted_after_failure
    (out : outside) (urlparse_path : string -> option string)
    (s3 : Py.storage) (resp : gmap string Py.pyval) (bucket : Py.pyval)
    (w : Py.world) :
  Py.ns w !! "status_response" = Some (Py.PDict resp) ->
  resp !! "outputConfiguration" = None ->
  Py.ns w !! "data_bucket" = Some bucket ->
  Lab1Cells.delete_results out urlparse_path
    (after_polling (Py.result_world (Lab1.after_poll s3 w)))
  = Exn (AttributeError "replace")
      (after_polling (Py.result_world (Lab1.after_poll s3 w))).
Proof.
  intros Hsr Hnone Hbucket.
  rewrite (after_poll_run s3 w resp ∅ Hsr) by (by rewrite Hnone).
  unfold Lab1Cells.delete_results, after_polling. nb_unfold.
  destruct (s3 _) as [doc|]; cbn [Py.result_world];
    repeat first
      [ rewrite lookup_fmap | rewrite lookup_insert_eq
      | rewrite lookup_insert_ne by done | rewrite lookup_empty
      | rewrite Hbucket
      | progress cbn [Py.ns Nb.vars Nb.log fmap option_fmap option_map
                      of_py method_replace default from_option id] ];
    reflexivity.
Qed.

Lemma lab1_results_not_deleted_after_failure_witness :
  Lab1Cells.delete_results (fun _ => Some JNull) (fun u => Some u)
    (after_polling
       (Py.result_world
          (Lab1.after_poll (fun _ => None)
             {| Py.ns := {["status_response" :=
                             Py.PDict (Lab1.status_only "ServiceError");
                           "data_bucket" := Py.PStr "bda-workshop-bucket"]};
                Py.trace := [] |})))
  = Exn (AttributeError "replace")
      (after_polling
         (Py.result_world
            (Lab1.after_poll (fun _ => None)
               {| Py.ns := {["status_response" :=
                               Py.PDict (Lab1.status_only "ServiceError");
                             "data_bucket" := Py.PStr "bda-workshop-bucket"]};
                  Py.trace := [] |}))).
Proof.
  exact (lab1_results_not_deleted_after_failure
           (fun _ => Some JNull) (fun u => Some u) (fun _ => None)
           (Lab1.status_only "ServiceError") (Py.PStr "bda-workshop-bucket")
           {| Py.ns := {["status_response" :=
                           Py.PDict (Lab1.status_only "ServiceError");
                         "data_bucket" := Py.PStr "bda-workshop-bucket"]};
              Py.trace := [] |}
           eq_refl eq_refl eq_refl).
Defined.

(** X12: when [output_config] is a string that ends in
    "job_metadata.json" and holds that name nowhere before, line 386 of
    lab 1 deletes the folder named by the path of the rest of the URI
    without its leading slashes: it calls [delete_s3_folder] once, with
    the bucket and that folder, and the folder does not start with a
    slash. *)
Theorem lab1_results_folder_deleted
    (out : outside) (urlparse_path : string -> option string)
    (s : state) (bucket : jval) (dir path : string) :
  vars s !! "data_bucket" = Some bucket ->
  vars s !! "output_config"
    = Some (JStr (String.append dir "job_metadata.json")) ->
  Str.only_at_end "job_metadata.json" dir = true ->
  urlparse_path dir = Some path ->
  log (state_of (Lab1Cells.delete_results out urlparse_path s))
  = log s ++ [Called (DeleteS3Folder [bucket; JStr (Str.lstrip "/" path)])]
  /\ forall rest, Str.lstrip "/" path <> String "/" rest.
Proof.
  intros Hbucket Hconfig Honly Hpath. split; [|apply lstrip_head].
  unfold Lab1Cells.delete_results. nb_unfold. rewrite Hbucket, Hconfig.
  cbn [method_replace]. rewrite (replace_at_end _ _ dir) by done.
  rewrite append_nil_r, Hpath. nb_step.
  by destruct (out _).
Qed.

Lemma lab1_results_folder_deleted_witness :
  log (state_of
         (Lab1Cells.delete_results (fun _ => Some JNull)
            (fun u => Some (String.substring 11 100 u))
            {| vars := {["data_bucket" := JStr "bucket";
                         "output_config" :=
                           JStr (String.append "s3://bucket/out/job-1/"
                                   "job_metadata.json")]};
               log := [] |}))
  = [] ++ [Called (DeleteS3Folder
                     [JStr "bucket";
                      JStr (Str.lstrip "/"
                              (String.substring 11 100
                                 "s3://bucket/out/job-1/"))])]
  /\ forall rest,
       Str.lstrip "/" (String.substring 11 100 "s3://bucket/out/job-1/")
       <> String "/" rest.
Proof.
  exact (lab1_results_folder_deleted (fun _ => Some JNull)
           (fun u => Some (String.substring 11 100 u))
           {| vars := {["data_bucket" := JStr "bucket";
                        "output_config" :=
                          JStr (String.append "s3://bucket/out/job-1/"
                                  "job_metadata.json")]};
              log := [] |}
           (JStr "bucket") "s3://bucket/out/job-1/"
           (String.substring 11 100 "s3://bucket/out/job-1/")
           eq_refl eq_refl eq_refl eq_refl).
Defined.

(** ** A response without a status *)



(** ** Lab 2: loading the results *)

(** X14: lines 319-329 of lab 2 read the job metadata from
    [output_config_uri], then the document at the custom output path of
    its first segment, bind [result_data] to that document and save that
    very document to bda_results.json; the closing message is printed only
    when the file could be written. *)
Theorem lab2_saves_custom_output
    (out : outside) (s : state) (uri path doc : jval)
    (d meta segment : list (string * jval)) (metas segments : list jval) :
  vars s !! "output_config_uri" = Some uri ->
  out (ReadJsonS3 uri) = Some (JDict d) ->
  lookup_key "output_metadata" d = Some (JList (JDict meta :: metas)) ->
  lookup_key "segment_metadata" meta = Some (JList (JDict segment :: segments)) ->
  lookup_key "custom_output_path" segment = Some path ->
  out (ReadJsonS3 path) = Some doc ->
  log (state_of (Lab2Cells.load_results out s))
  = log s
    ++ [Called (ReadJsonS3 uri); Called (ReadJsonS3 path);
        Called (SaveJson "bda_results.json" doc)]
    ++ match out (SaveJson "bda_results.json" doc) with
       | Some _ =>
           [Printed "Saved video object detection results to: bda_results.json" []]
       | None => []
       end
  /\ vars (state_of (Lab2Cells.load_results out s)) !! "result_data" = Some doc.
Proof.
  intros Huri Hconfig Hmetas Hsegments Hpath Hdoc.
  unfold Lab2Cells.load_results, Lab1Cells.first_output_path. nb_unfold.
  repeat first
    [ rewrite Huri | rewrite Hconfig | rewrite Hmetas | rewrite Hsegments
    | rewrite Hpath | rewrite Hdoc
    | progress nb_step
    | progress cbn [subscript index lookup list_lookup] ].
  destruct (out (SaveJson "bda_results.json" doc)); cbn [state_of log vars];
    nb_step; by rewrite <- !app_assoc.
Qed.

Lemma lab2_saves_custom_output_witness :
  log (state_of (Lab2Cells.load_results Lab2Cells.bucket_with_results
                   (Lab1Cells.holding "output_config_uri"
                      (JStr "s3://b/out/job_metadata.json"))))
  = log (Lab1Cells.holding "output_config_uri"
           (JStr "s3://b/out/job_metadata.json"))
    ++ [Called (ReadJsonS3 (JStr "s3://b/out/job_metadata.json"));
        Called (ReadJsonS3 (JStr "s3://b/out/custom/result.json"));
        Called (SaveJson "bda_results.json" (JDict [("chapters", JList [])]))]
    ++ match Lab2Cells.bucket_with_results
               (SaveJson "bda_results.json" (JDict [("chapters", JList [])])) with
       | Some _ =>
           [Printed "Saved video object detection results to: bda_results.json" []]
       | None => []
       end
  /\ vars (state_of (Lab2Cells.load_results Lab2Cells.bucket_with_results
                       (Lab1Cells.holding "output_config_uri"
                          (JStr "s3://b/out/job_metadata.json"))))
       !! "result_data"
     = Some (JDict [("chapters", JList [])]).
Proof.
  apply (lab2_saves_custom_output Lab2Cells.bucket_with_results
           (Lab1Cells.holding "output_config_uri"
              (JStr "s3://b/out/job_metadata.json"))
           (JStr "s3://b/out/job_metadata.json")
           (JStr "s3://b/out/custom/result.json")
           (JDict [("chapters", JList [])])
           [("job_id", JStr "job-1");
            ("output_metadata",
             JList [JDict [("asset_id", JInt 0);
                           ("segment_metadata",
                            JList [JDict [("custom_output_status", JStr "MATCH");
                                          ("custom_output_path",
                                           JStr "s3://b/out/custom/result.json")]])]])]
           [("asset_id", JInt 0);
            ("segment_metadata",
             JList [JDict [("custom_output_status", JStr "MATCH");
                           ("custom_output_path",
                            JStr "s3://b/out/custom/result.json")]])]
           [("custom_output_status", JStr "MATCH");
            ("custom_output_path", JStr "s3://b/out/custom/result.json")]
           [] []); reflexivity.
Defined.
